(** * web/data.py: paginated word counts, artifact paths, rendering and blob sink

    A shallow embedding of [src/web/data.py].  Python values that may be
    [None] are options, exceptions are the [Raise] branch of [result], the
    Firestore query builder is a record interpreted by [firestore.stream],
    and the blob buckets are finite maps. *)

From Stdlib Require Import ZArith Ascii String List Lia.
From stdpp Require Import base decidable option list sorting gmap strings pretty.

Local Open Scope Z_scope.

(** ** Python results *)

Inductive PyExc : Type :=
  | TypeError
  | ValueError (msg : string)
  | NameError (name : string)
  | InvalidArgument
  | NotFound.

Inductive result (A : Type) : Type :=
  | Ok (a : A)
  | Raise (e : PyExc).
Arguments Ok {A} a.
Arguments Raise {A} e.

Global Instance result_ret : MRet result := λ A a, Ok a.

Global Instance result_bind : MBind result := λ A B k r,
  match r with
  | Ok a => k a
  | Raise e => Raise e
  end.

(** ** models.py: the record class [word_counts] yields *)

Record WordCount := mkWordCount { word : string; count : Z }.

Global Instance WordCount_eq_dec : EqDecision WordCount.
Proof. solve_decision. Defined.

(** [Publication(id, count, image_url)]: the module builds it positionally. *)
Record Publication := mkPublication {
  publication_id : string;
  publication_count : Z;
  publication_image_url : string
}.

(** A checkpoint argument is a 2-tuple whose components may each be [None]. *)
Definition Checkpoint : Type := option string * option Z.

(** Python truthiness of [word]: [None] and the empty string are falsy. *)
Definition truthy (w : option string) : bool :=
  match w with
  | None => false
  | Some EmptyString => false
  | Some (String _ _) => true
  end.

(** ** Python string methods used by the module *)

Module str.

(** [s.split(sep)] for a one-character separator. *)
Fixpoint split (sep : ascii) (s : string) : list string :=
  match s with
  | EmptyString => [EmptyString]
  | String c s' =>
      if Ascii.eqb c sep then EmptyString :: split sep s'
      else match split sep s' with
           | piece :: pieces => String c piece :: pieces
           | [] => [String c EmptyString]
           end
  end.

(** [sep.join(pieces)] *)
Fixpoint join (sep : string) (pieces : list string) : string :=
  match pieces with
  | [] => EmptyString
  | [piece] => piece
  | piece :: pieces' => piece +:+ sep +:+ join sep pieces'
  end.

(** Truthiness of a string: non-empty. *)
Definition nonempty (s : string) : bool :=
  match s with
  | EmptyString => false
  | String _ _ => true
  end.

Definition lower_char (c : ascii) : ascii :=
  let n := nat_of_ascii c in
  if ((65 <=? n) && (n <=? 90))%nat then ascii_of_nat (n + 32) else c.

(** [s.lower()] on the ASCII letters; bytes of other characters are kept. *)
Fixpoint lower (s : string) : string :=
  match s with
  | EmptyString => EmptyString
  | String c s' => String (lower_char c) (lower s')
  end.

(** [s.split(sep, 1)] when [sep] occurs in [s]: the text before and after
    its first occurrence; [None] when it does not occur. *)
Fixpoint partition (sep : ascii) (s : string) : option (string * string) :=
  match s with
  | EmptyString => None
  | String c s' =>
      if Ascii.eqb c sep then Some (EmptyString, s')
      else match partition sep s' with
           | Some (before, after) => Some (String c before, after)
           | None => None
           end
  end.

End str.

(** ** hashlib.md5 (RFC 1321) on 32-bit words held in [Z] *)

Module hashlib.

Definition mask32 (x : Z) : Z := Z.land x 0xffffffff.
Definition not32 (x : Z) : Z := Z.lxor x 0xffffffff.
Definition rotl32 (x c : Z) : Z :=
  mask32 (Z.lor (Z.shiftl x c) (Z.shiftr x (32 - c))).

Definition K : list Z :=
  [ 0xd76aa478; 0xe8c7b756; 0x242070db; 0xc1bdceee;
    0xf57c0faf; 0x4787c62a; 0xa8304613; 0xfd469501;
    0x698098d8; 0x8b44f7af; 0xffff5bb1; 0x895cd7be;
    0x6b901122; 0xfd987193; 0xa679438e; 0x49b40821;
    0xf61e2562; 0xc040b340; 0x265e5a51; 0xe9b6c7aa;
    0xd62f105d; 0x02441453; 0xd8a1e681; 0xe7d3fbc8;
    0x21e1cde6; 0xc33707d6; 0xf4d50d87; 0x455a14ed;
    0xa9e3e905; 0xfcefa3f8; 0x676f02d9; 0x8d2a4c8a;
    0xfffa3942; 0x8771f681; 0x6d9d6122; 0xfde5380c;
    0xa4beea44; 0x4bdecfa9; 0xf6bb4b60; 0xbebfbc70;
    0x289b7ec6; 0xeaa127fa; 0xd4ef3085; 0x04881d05;
    0xd9d4d039; 0xe6db99e5; 0x1fa27cf8; 0xc4ac5665;
    0xf4292244; 0x432aff97; 0xab9423a7; 0xfc93a039;
    0x655b59c3; 0x8f0ccc92; 0xffeff47d; 0x85845dd1;
    0x6fa87e4f; 0xfe2ce6e0; 0xa3014314; 0x4e0811a1;
    0xf7537e82; 0xbd3af235; 0x2ad7d2bb; 0xeb86d391 ].

Definition shifts : list Z :=
  [ 7; 12; 17; 22; 7; 12; 17; 22; 7; 12; 17; 22; 7; 12; 17; 22;
    5; 9; 14; 20; 5; 9; 14; 20; 5; 9; 14; 20; 5; 9; 14; 20;
    4; 11; 16; 23; 4; 11; 16; 23; 4; 11; 16; 23; 4; 11; 16; 23;
    6; 10; 15; 21; 6; 10; 15; 21; 6; 10; 15; 21; 6; 10; 15; 21 ].

(** [pub_id.encode()]: the bytes of the string. *)
Definition encode (s : string) : list Z :=
  map (λ c, Z.of_nat (nat_of_ascii c)) (list_ascii_of_string s).

Definition le_bytes (n : nat) (x : Z) : list Z :=
  map (λ i : nat, Z.land (Z.shiftr x (8 * Z.of_nat i)) 0xff) (seq 0 n).

Definition pad (msg : list Z) : list Z :=
  let len := Z.of_nat (length msg) in
  msg ++ [0x80] ++ replicate (Z.to_nat ((55 - len) mod 64)) 0
      ++ le_bytes 8 (8 * len).

Fixpoint le_word (bytes : list Z) : Z :=
  match bytes with
  | [] => 0
  | b :: bytes' => Z.lor b (Z.shiftl (le_word bytes') 8)
  end.

Fixpoint groups {A} (size count : nat) (l : list A) : list (list A) :=
  match count with
  | O => []
  | S count' => take size l :: groups size count' (drop size l)
  end.

Definition State : Type := Z * Z * Z * Z.

Definition step (M : list Z) (st : State) (i : nat) : State :=
  let '(a, b, c, d) := st in
  let iz := Z.of_nat i in
  let '(f, g) :=
    if iz <? 16 then (Z.lor (Z.land b c) (Z.land (not32 b) d), iz)
    else if iz <? 32 then
      (Z.lor (Z.land d b) (Z.land (not32 d) c), (5 * iz + 1) mod 16)
    else if iz <? 48 then (Z.lxor (Z.lxor b c) d, (3 * iz + 5) mod 16)
    else (Z.lxor c (Z.lor b (not32 d)), (7 * iz) mod 16) in
  let f := mask32 (f + a + nth i K 0 + nth (Z.to_nat g) M 0) in
  (d, mask32 (b + rotl32 f (nth i shifts 0)), b, c).

Definition compress (st : State) (block : list Z) : State :=
  let M := map le_word (groups 4 16 block) in
  let '(a0, b0, c0, d0) := st in
  let '(a, b, c, d) := foldl (step M) st (seq 0 64) in
  (mask32 (a0 + a), mask32 (b0 + b), mask32 (c0 + c), mask32 (d0 + d)).

Definition md5 (msg : list Z) : list Z :=
  let padded := pad msg in
  let blocks := groups 64 (length padded / 64) padded in
  let '(a, b, c, d) :=
    foldl compress (0x67452301, 0xefcdab89, 0x98badcfe, 0x10325476) blocks in
  le_bytes 4 a ++ le_bytes 4 b ++ le_bytes 4 c ++ le_bytes 4 d.

Definition hex_digit (x : Z) : ascii :=
  ascii_of_nat (Z.to_nat (if x <? 10 then 48 + x else 87 + x)).

Fixpoint hex (bytes : list Z) : string :=
  match bytes with
  | [] => EmptyString
  | b :: bytes' =>
      String (hex_digit (Z.shiftr b 4))
        (String (hex_digit (Z.land b 0xf)) (hex bytes'))
  end.

(** [hashlib.md5(data).hexdigest()] *)
Definition md5_hexdigest (data : list Z) : string := hex (md5 data).

End hashlib.

(** ** urllib.parse.urljoin

    The standard library's [urlsplit], [urlparse], [urlunparse] and
    [urljoin] on [str] arguments, as of Python 3.11.  A string is the
    sequence of its UTF-8 bytes.  Two checks of a network location are left
    to the library: the one of a bracketed host, which parses an IP
    literal, and the one of a non-ASCII host, which normalises it; each
    returns or raises, and [Checks] stands for them. *)

Module urllib.

Record Checks := mkChecks {
  check_bracketed_netloc : string → result ();
  check_normalized_netloc : string → result ()
}.

(** Checks that accept every network location. *)
Definition lenient : Checks := mkChecks (λ _, Ok ()) (λ _, Ok ()).

Definition uses_relative : list string :=
  [ ""; "ftp"; "http"; "gopher"; "nntp"; "imap"; "wais"; "file"; "https";
    "shttp"; "mms"; "prospero"; "rtsp"; "rtspu"; "sftp"; "svn"; "svn+ssh";
    "ws"; "wss" ].

Definition uses_netloc : list string :=
  [ ""; "ftp"; "http"; "gopher"; "nntp"; "telnet"; "imap"; "wais"; "file";
    "mms"; "https"; "shttp"; "snews"; "prospero"; "rtsp"; "rtspu"; "rsync";
    "svn"; "svn+ssh"; "sftp"; "nfs"; "git"; "git+ssh"; "ws"; "wss" ].

Definition uses_params : list string :=
  [ ""; "ftp"; "hdl"; "prospero"; "http"; "imap"; "https"; "shttp"; "rtsp";
    "rtspu"; "sip"; "sips"; "mms"; "sftp"; "tel" ].

(** [scheme in uses] *)
Definition listed (scheme : string) (uses : list string) : bool :=
  existsb (String.eqb scheme) uses.

(** [_UNSAFE_URL_BYTES_TO_REMOVE]: tab, carriage return, line feed. *)
Definition unsafe_byte (c : ascii) : bool :=
  Ascii.eqb c "009" || Ascii.eqb c "013" || Ascii.eqb c "010".

Fixpoint remove_unsafe (s : string) : string :=
  match s with
  | EmptyString => EmptyString
  | String c s' =>
      if unsafe_byte c then remove_unsafe s' else String c (remove_unsafe s')
  end.

(** [_WHATWG_C0_CONTROL_OR_SPACE]: the bytes up to the space. *)
Definition c0_control_or_space (c : ascii) : bool :=
  (nat_of_ascii c <=? 32)%nat.

Fixpoint lstrip (s : string) : string :=
  match s with
  | EmptyString => EmptyString
  | String c s' => if c0_control_or_space c then lstrip s' else s
  end.

Definition rstrip (s : string) : string :=
  string_of_list_ascii
    (reverse (list_ascii_of_string
                (lstrip (string_of_list_ascii
                           (reverse (list_ascii_of_string s)))))).

Definition strip (s : string) : string := rstrip (lstrip s).

Definition is_alpha (c : ascii) : bool :=
  let n := nat_of_ascii c in
  ((65 <=? n) && (n <=? 90) || (97 <=? n) && (n <=? 122))%nat.

Definition is_digit (c : ascii) : bool :=
  let n := nat_of_ascii c in ((48 <=? n) && (n <=? 57))%nat.

(** [c in scheme_chars] *)
Definition scheme_char (c : ascii) : bool :=
  is_alpha c || is_digit c ||
  Ascii.eqb c "+" || Ascii.eqb c "-" || Ascii.eqb c ".".

Fixpoint every (p : ascii → bool) (s : string) : bool :=
  match s with
  | EmptyString => true
  | String c s' => p c && every p s'
  end.

(** [c in s] *)
Fixpoint contains (c : ascii) (s : string) : bool :=
  match s with
  | EmptyString => false
  | String c' s' => Ascii.eqb c' c || contains c s'
  end.

(** [netloc.isascii()] *)
Definition isascii (s : string) : bool :=
  every (λ c, (nat_of_ascii c <? 128)%nat) s.

(** [url[n:]] *)
Fixpoint skip (n : nat) (s : string) : string :=
  match n, s with
  | O, _ => s
  | S n', String _ s' => skip n' s'
  | S _, EmptyString => EmptyString
  end.

(** The network location ends at the first slash, question mark or hash. *)
Fixpoint netloc_end (s : string) : string * string :=
  match s with
  | EmptyString => (EmptyString, EmptyString)
  | String c s' =>
      if Ascii.eqb c "/" || Ascii.eqb c "?" || Ascii.eqb c "#"
      then (EmptyString, s)
      else let '(netloc, rest) := netloc_end s' in (String c netloc, rest)
  end.

(** [_splitnetloc(url, start)] *)
Definition splitnetloc (url : string) (start : nat) : string * string :=
  netloc_end (skip start url).

(** [_checknetloc] *)
Definition checknetloc (ck : Checks) (netloc : string) : result () :=
  if negb (str.nonempty netloc) || isascii netloc then Ok ()
  else check_normalized_netloc ck netloc.

Record SplitResult := mkSplitResult {
  s_scheme : string; s_netloc : string; s_path : string;
  s_query : string; s_fragment : string
}.

Definition urlsplit (ck : Checks) (url scheme : string) : result SplitResult :=
  let url := lstrip url in
  let scheme := strip scheme in
  let url := remove_unsafe url in
  let scheme := remove_unsafe scheme in
  let '(scheme, url) :=
    match str.partition ":" url with
    | Some (String c _ as head, rest) =>
        if is_alpha c && every scheme_char head
        then (str.lower head, rest) else (scheme, url)
    | _ => (scheme, url)
    end in
  '(netloc, url) ←
    (if String.prefix "//" url then
       let '(netloc, url) := splitnetloc url 2 in
       if xorb (contains "[" netloc) (contains "]" netloc)
       then Raise (ValueError "Invalid IPv6 URL")
       else
         _ ← (if contains "[" netloc && contains "]" netloc
              then check_bracketed_netloc ck netloc else Ok ());
         Ok (netloc, url)
     else Ok (EmptyString, url));
  let '(url, fragment) :=
    default (url, EmptyString) (str.partition "#" url) in
  let '(url, query) :=
    default (url, EmptyString) (str.partition "?" url) in
  _ ← checknetloc ck netloc;
  Ok (mkSplitResult scheme netloc url query fragment).

Record ParseResult := mkParseResult {
  p_scheme : string; p_netloc : string; p_path : string;
  p_params : string; p_query : string; p_fragment : string
}.

(** [_splitparams]: params start at the first semicolon of the last path
    segment. *)
Definition splitparams (url : string) : string * string :=
  let segments := str.split "/" url in
  match reverse segments with
  | [] => (url, EmptyString)
  | final :: before =>
      match str.partition ";" final with
      | None => (url, EmptyString)
      | Some (name, params) =>
          (str.join "/" (reverse (name :: before)), params)
      end
  end.

Definition urlparse (ck : Checks) (url scheme : string) : result ParseResult :=
  s ← urlsplit ck url scheme;
  let '(url, params) :=
    if listed (s_scheme s) uses_params && contains ";" (s_path s)
    then splitparams (s_path s) else (s_path s, EmptyString) in
  Ok (mkParseResult (s_scheme s) (s_netloc s) url params
        (s_query s) (s_fragment s)).

Definition urlunsplit (s : SplitResult) : string :=
  let url := s_path s in
  let url :=
    if str.nonempty (s_netloc s) ||
       (str.nonempty (s_scheme s) && listed (s_scheme s) uses_netloc &&
        negb (String.prefix "//" url))
    then
      let url :=
        if str.nonempty url && negb (String.prefix "/" url)
        then "/" +:+ url else url in
      "//" +:+ s_netloc s +:+ url
    else url in
  let url :=
    if str.nonempty (s_scheme s) then s_scheme s +:+ ":" +:+ url else url in
  let url :=
    if str.nonempty (s_query s) then url +:+ "?" +:+ s_query s else url in
  if str.nonempty (s_fragment s) then url +:+ "#" +:+ s_fragment s else url.

Definition urlunparse (p : ParseResult) : string :=
  let url :=
    if str.nonempty (p_params p) then p_path p +:+ ";" +:+ p_params p
    else p_path p in
  urlunsplit
    (mkSplitResult (p_scheme p) (p_netloc p) url (p_query p) (p_fragment p)).

(** The loop over [segments] that drops [.] and pops on [..]. *)
Definition resolve (segments : list string) : list string :=
  foldl (λ resolved seg,
           if String.eqb seg ".." then removelast resolved
           else if String.eqb seg "." then resolved
           else resolved ++ [seg])
        [] segments.

(** [segments[1:-1] = filter(None, segments[1:-1])] *)
Definition drop_empty_inner (segments : list string) : list string :=
  match segments with
  | [] => []
  | first :: others =>
      match reverse others with
      | [] => [first]
      | final :: inner =>
          first :: filter (λ seg, str.nonempty seg = true) (reverse inner)
            ++ [final]
      end
  end.

Definition urljoin (ck : Checks) (base url : string) : result string :=
  if negb (str.nonempty base) then Ok url
  else if negb (str.nonempty url) then Ok base
  else
    b ← urlparse ck base EmptyString;
    u ← urlparse ck url (p_scheme b);
    if negb (String.eqb (p_scheme u) (p_scheme b)) ||
       negb (listed (p_scheme u) uses_relative)
    then Ok url
    else if listed (p_scheme u) uses_netloc && str.nonempty (p_netloc u)
    then Ok (urlunparse u)
    else
      let netloc :=
        if listed (p_scheme u) uses_netloc then p_netloc b else p_netloc u in
      if negb (str.nonempty (p_path u)) && negb (str.nonempty (p_params u))
      then
        Ok (urlunparse
              (mkParseResult (p_scheme u) netloc (p_path b) (p_params b)
                 (if str.nonempty (p_query u) then p_query u else p_query b)
                 (p_fragment u)))
      else
        let base_parts := str.split "/" (p_path b) in
        let base_parts :=
          if str.nonempty (List.last base_parts EmptyString)
          then removelast base_parts else base_parts in
        let segments :=
          if String.prefix "/" (p_path u) then str.split "/" (p_path u)
          else drop_empty_inner (base_parts ++ str.split "/" (p_path u)) in
        let resolved := resolve segments in
        let final := List.last segments EmptyString in
        let resolved :=
          if String.eqb final "." || String.eqb final ".."
          then resolved ++ [EmptyString] else resolved in
        let path := str.join "/" resolved in
        Ok (urlunparse
              (mkParseResult (p_scheme u) netloc
                 (if str.nonempty path then path else "/")
                 (p_params u) (p_query u) (p_fragment u))).

End urllib.

(** ** image_url_path *)

Definition image_url_path (ck : urllib.Checks) (pub_id : string)
    (path : option string) : result string :=
  let path :=
    match path with
    | None => "/"
    | Some p => if str.nonempty p then p else "/"
    end in
  let path :=
    if negb (String.eqb path "/") then
      let pieces := str.split "/" path in
      "/" +:+ str.join "/" (filter (λ p, str.nonempty p = true) pieces)
          +:+ "/"
    else path in
  urllib.urljoin ck path
    (hashlib.md5_hexdigest (hashlib.encode pub_id) +:+ ".png").

(** ** The ordered collection backend (google.cloud.firestore) *)

Module firestore.

(** A document of the [ent] sub-collection: fields [word] and [count]. *)
Record Doc := mkDoc { doc_word : string; doc_count : Z }.

Global Instance Doc_eq_dec : EqDecision Doc.
Proof. solve_decision. Defined.

Inductive Field := F_count | F_word.
Inductive Direction := ASCENDING | DESCENDING.

Definition field_compare (f : Field) (a b : Doc) : comparison :=
  match f with
  | F_count => Z.compare (doc_count a) (doc_count b)
  | F_word => String.compare (doc_word a) (doc_word b)
  end.

Definition directed (d : Direction) (c : comparison) : comparison :=
  match d with
  | ASCENDING => c
  | DESCENDING => CompOpp c
  end.

(** Lexicographic comparison along the [order_by] clauses of a query. *)
Fixpoint order_compare (orders : list (Field * Direction)) (a b : Doc)
    : comparison :=
  match orders with
  | [] => Eq
  | (f, d) :: orders' =>
      match directed d (field_compare f a b) with
      | Eq => order_compare orders' a b
      | c => c
      end
  end.

Definition order_le (orders : list (Field * Direction)) : relation Doc :=
  λ a b, order_compare orders a b ≠ Gt.

Global Instance order_le_dec orders a b : Decision (order_le orders a b).
Proof. unfold order_le. apply _. Defined.

Record Query := mkQuery {
  q_collection : list Doc;
  q_orders : list (Field * Direction);
  q_limit : option Z;
  q_start_after : option Doc
}.

(** The database: the [ent] sub-collection of every publication document.
    A publication without documents has the empty collection. *)
Record Client := mkClient { ents : gmap string (list Doc) }.

Definition collection_ent (db : Client) (publ : string) : Query :=
  mkQuery (default [] (ents db !! publ)) [] None None.

Definition order_by (q : Query) (f : Field) (d : Direction) : Query :=
  mkQuery (q_collection q) (q_orders q ++ [(f, d)]) (q_limit q)
          (q_start_after q).

Definition limit (q : Query) (n : Z) : Query :=
  mkQuery (q_collection q) (q_orders q) (Some n) (q_start_after q).

Definition start_after (q : Query) (cursor : Doc) : Query :=
  mkQuery (q_collection q) (q_orders q) (q_limit q) (Some cursor).

(** Running the query as the backend does: the collection in the order of
    the [order_by] clauses, from strictly behind the cursor (documents that
    compare equal to the cursor are skipped with it), cut at the limit.  The
    backend rejects a negative limit. *)
Definition stream (q : Query) : result (list Doc) :=
  let ordered := merge_sort (order_le (q_orders q)) (q_collection q) in
  let seeked :=
    match q_start_after q with
    | None => ordered
    | Some cursor =>
        filter (λ d, order_compare (q_orders q) cursor d = Lt) ordered
    end in
  match q_limit q with
  | None => Ok seeked
  | Some n =>
      if n <? 0 then Raise InvalidArgument
      else Ok (take (Z.to_nat n) seeked)
  end.

(** A document of the [publications] collection: its id and its [count]
    field. *)
Record PubDoc := mkPubDoc { pubdoc_id : string; pubdoc_count : Z }.

End firestore.

(** ** class DataStorage *)

Module DataStorage.
Import firestore.

(** Lines 84-93: the checkpoint tuple becomes a cursor dict, or the empty
    dict when [word] is falsy or [count] is [None]. *)
Definition cursor_of (checkpoint : option Checkpoint) : option Doc :=
  let '(word, count) := default (None, None) checkpoint in
  match word, count with
  | Some w, Some c => if truthy word then Some (mkDoc w c) else None
  | _, _ => None
  end.

Definition word_counts (db : Client) (publ : string) (top_n : Z)
    (checkpoint : option Checkpoint) : result (list WordCount) :=
  let checkpoint := cursor_of checkpoint in
  let q := collection_ent db publ in
  let q := order_by q F_count DESCENDING in
  let q := order_by q F_word ASCENDING in
  let q := limit q top_n in
  let q := match checkpoint with
           | Some cursor => start_after q cursor
           | None => q
           end in
  docs ← stream q;
  Ok ((λ doc, mkWordCount (doc_word doc) (doc_count doc))
        <$> (docs : list Doc)).

(** The dict comprehension inserts in iteration order; a later record
    overwrites an earlier one with the same word. *)
Definition frequencies (db : Client) (publ : string) (top_n : Z)
    (checkpoint : option Checkpoint) : result (gmap string Z) :=
  wcs ← word_counts db publ top_n checkpoint;
  Ok (foldl (λ m wc, <[word wc := count wc]> m) ∅ wcs).

(** [publications]: one [Publication] per document of the collection, in
    the order the backend streams them ([catalog]); the generator is run to
    its end, or to the first document whose path raises. *)
Definition publications (ck : urllib.Checks) (catalog : list PubDoc)
    (bucket_name : option string) : result (list Publication) :=
  mapM (λ doc,
          image_url ← image_url_path ck (pubdoc_id doc) bucket_name;
          Ok (mkPublication (pubdoc_id doc) (pubdoc_count doc) image_url))
       catalog.

End DataStorage.

(** ** class NoOpDataStorage *)

Module NoOpDataStorage.

(** [range(start, 10)] *)
Definition range_to_10 (start : Z) : list Z :=
  seqZ start (10 - start).

Definition word_counts (publ : string) (top_n : Z)
    (checkpoint : option Checkpoint) : result (list WordCount) :=
  start ←
    match checkpoint with
    | None => Ok 0
    | Some (None, None) => Ok 0
    | Some (_, Some c) => Ok (c + 1)
    | Some (_, None) => Raise TypeError
    end;
  Ok ((λ i, mkWordCount ("ent" +:+ pretty i) i) <$> range_to_10 start).

Definition frequencies (publ : string) (top_n : Z)
    (checkpoint : option Checkpoint) : result (gmap string Z) :=
  wcs ← word_counts publ top_n checkpoint;
  Ok (foldl (λ m wc, <[word wc := count wc]> m) ∅ wcs).

Definition publications (ck : urllib.Checks) (bucket_name : option string)
    : result (list Publication) :=
  mapM (λ i,
          let pub := "pub" +:+ pretty i in
          image_url ← image_url_path ck pub bucket_name;
          Ok (mkPublication pub i image_url))
       (seqZ 0 10).

End NoOpDataStorage.

(** ** generate_word_cloud

    The rendering libraries (wordcloud, PIL) are outside the module; each of
    their calls either returns or raises.  [WordCloud] builds a layout of
    the given size, [fit_words] fits it to the frequencies, [to_image]
    converts a layout to an image and [image_save] writes an image out in a
    named format. *)

Section rendering.
Context {Layout Image : Type}.
Variable WordCloud : Z → Z → result Layout.
Variable fit_words : Layout → gmap string Z → result Layout.
Variable to_image : Layout → result Image.
Variable image_save : Image → string → result (list Z).

Inductive Rendering : Type :=
  | Raw (wc : Layout)
  | Picture (image : Image)
  | Bytes (data : list Z).

Definition image_to_byte_array (image : Image) (fmt : string)
    : result (list Z) :=
  image_save image fmt.

(** Lines 38-49: the layout is built and fitted before the format is
    looked at.  [wc.fit_words(freqs)] changes [wc] in place; the layout
    bound next is [wc] after the call. *)
Definition generate_word_cloud (freqs : gmap string Z) (fmt : string)
    (height width : Z) : result Rendering :=
  wc ← WordCloud height width;
  wc ← fit_words wc freqs;
  let fmt := str.lower fmt in
  if String.eqb fmt "raw" then Ok (Raw wc)
  else if String.eqb fmt "image" then
    image ← to_image wc;
    Ok (Picture image)
  else if String.eqb fmt "bytes" then
    image ← to_image wc;
    data ← image_to_byte_array image "png";
    Ok (Bytes data)
  else Raise (ValueError "unsupported fmt value.").

End rendering.

Arguments Raw {Layout Image} wc.
Arguments Picture {Layout Image} image.
Arguments Bytes {Layout Image} data.

(** A rendering library for the examples: a layout is its size with the
    fitted frequencies, an image is a layout, and the encoding of an image
    is the PNG signature.  As the wordcloud library does, [fit_words]
    refuses an empty mapping. *)
Module sample_renderer.

Definition Layout : Type := Z * Z * gmap string Z.

Definition WordCloud (height width : Z) : result Layout :=
  Ok (height, width, ∅).

Definition fit_words (wc : Layout) (freqs : gmap string Z) : result Layout :=
  if decide (freqs = ∅) then
    Raise (ValueError "We need at least 1 word to plot a word cloud, got 0.")
  else Ok (wc.1.1, wc.1.2, freqs).

Definition to_image (wc : Layout) : result Layout := Ok wc.

Definition image_save (image : Layout) (fmt : string) : result (list Z) :=
  Ok [137; 80; 78; 71; 13; 10; 26; 10].

Definition render (freqs : gmap string Z) (fmt : string) (height width : Z)
    : result (Rendering (Layout := Layout) (Image := Layout)) :=
  generate_word_cloud WordCloud fit_words to_image image_save
    freqs fmt height width.

End sample_renderer.

(** ** The blob backend (google.cloud.storage) *)

Module storage.

Record Blob := mkBlob { blob_data : list Z; blob_content_type : string }.

(** Buckets by name, each holding its blobs by name. *)
Definition Client : Type := gmap string (gmap string Blob).

Definition get_bucket (c : Client) (bucket : string)
    : result (gmap string Blob) :=
  match c !! bucket with
  | Some b => Ok b
  | None => Raise NotFound
  end.

(** [Blob(name, bucket).upload_from_string(data, content_type=...)] *)
Definition upload_from_string (c : Client) (bucket name : string)
    (data : list Z) (content_type : string) : Client :=
  <[bucket := <[name := mkBlob data content_type]> (default ∅ (c !! bucket))]> c.

End storage.

(** ** The module's global namespace

    Every name that [data.py] binds at module level, by import or by
    definition.  A name used in a function body and bound neither there nor
    here (nor among the builtins) raises [NameError] when the body runs. *)

Inductive PyObject : Type :=
  | PyModule
  | PyClass
  | PyFunction
  | PyFunction1 (f : string → result string).

Definition module_globals (ck : urllib.Checks) : gmap string PyObject :=
  list_to_map
    [ ("hashlib", PyModule); ("io", PyModule); ("urljoin", PyFunction);
      ("Any", PyClass); ("Dict", PyClass); ("Generator", PyClass);
      ("Tuple", PyClass); ("firestore", PyModule); ("storage", PyModule);
      ("Blob", PyClass); ("Image", PyModule); ("WordCloud", PyClass);
      ("Publication", PyClass); ("WordCount", PyClass);
      ("get_client", PyFunction); ("image_to_byte_array", PyFunction);
      ("generate_word_cloud", PyFunction);
      ("image_url_path",
       PyFunction1 (λ pub_id, image_url_path ck pub_id (Some "/")));
      ("DataStorage", PyClass); ("NoOpDataStorage", PyClass);
      ("BlobStorage", PyClass); ("NoOpBlobStorage", PyClass) ].

(** Calling a global on one string argument. *)
Definition call_global (ck : urllib.Checks) (name : string) (arg : string)
    : result string :=
  match module_globals ck !! name with
  | None => Raise (NameError name)
  | Some (PyFunction1 f) => f arg
  | Some _ => Raise TypeError
  end.

(** ** class BlobStorage *)

Module BlobStorage.

Definition save (ck : urllib.Checks) (blob : storage.Client)
    (publ bucket : string) (ibytes : list Z) : result unit * storage.Client :=
  match call_global ck "pub_to_url" publ with
  | Raise e => (Raise e, blob)
  | Ok publ =>
      match storage.get_bucket blob bucket with
      | Raise e => (Raise e, blob)
      | Ok _ =>
          (Ok (),
           storage.upload_from_string blob bucket (publ +:+ ".png") ibytes
             "image/png")
      end
  end.

End BlobStorage.

(** ** class NoOpBlobStorage *)

Module NoOpBlobStorage.

Definition save (publ bucket : string) (ibytes : list Z) : result unit :=
  Ok ().

End NoOpBlobStorage.

(** ** get_client *)

Inductive BackendClient : Type :=
  | FirestoreClient
  | StorageClient.

Definition get_client (_type : string) : result BackendClient :=
  if String.eqb _type "db" then Ok FirestoreClient
  else if String.eqb _type "blob" then Ok StorageClient
  else Raise (ValueError "unknown client type").

(** ** Paging through [word_counts]

    The client loop of the pagination property: request a page, and while a
    page is not empty request the next one with the (word, count) of its
    last record as checkpoint.  [None] when the fuel runs out or a call
    raises. *)

Definition checkpoint_of (r : WordCount) : Checkpoint :=
  (Some (word r), Some (count r)).

Fixpoint paginate (fuel : nat) (db : firestore.Client) (publ : string)
    (k : Z) (checkpoint : option Checkpoint) : option (list WordCount) :=
  match fuel with
  | O => None
  | S fuel' =>
      match DataStorage.word_counts db publ k checkpoint with
      | Raise _ => None
      | Ok page =>
          match last page with
          | None => Some []
          | Some r =>
              rest ← paginate fuel' db publ k (Some (checkpoint_of r));
              Some (page ++ rest)
          end
      end
  end.

(** ** Vocabulary of the statements *)

(** The order the query of [word_counts] asks for. *)
Definition ent_orders : list (firestore.Field * firestore.Direction) :=
  [(firestore.F_count, firestore.DESCENDING);
   (firestore.F_word, firestore.ASCENDING)].

Definition docs_of (db : firestore.Client) (publ : string)
    : list firestore.Doc :=
  default [] (firestore.ents db !! publ).

(** The whole collection of a publication in query order. *)
Definition ordered_docs (db : firestore.Client) (publ : string)
    : list firestore.Doc :=
  merge_sort (firestore.order_le ent_orders) (docs_of db publ).

(** What the query leaves of the ordered collection behind a cursor. *)
Definition remaining (cursor : option firestore.Doc)
    (ordered : list firestore.Doc) : list firestore.Doc :=
  match cursor with
  | None => ordered
  | Some c =>
      filter (λ d, firestore.order_compare ent_orders c d = Lt) ordered
  end.

Definition record_of (doc : firestore.Doc) : WordCount :=
  mkWordCount (firestore.doc_word doc) (firestore.doc_count doc).

(** A record strictly follows the composite key (c, w) in the order count
    descending, word ascending. *)
Definition follows (c : Z) (w : string) (r : WordCount) : Prop :=
  count r < c ∨ (count r = c ∧ String.compare w (word r) = Lt).

(** Case-insensitive comparison: equal after lowering both sides. *)
Definition caseless_eq (a b : string) : Prop := str.lower a = str.lower b.

(** Base-path normalisation in the words of the specification: absent or
    empty is the root; anything else is split on slashes, its empty segments
    are dropped and the rest is put between one leading and one trailing
    slash. *)
Definition canonical_base (base : option string) : string :=
  match base with
  | None => "/"
  | Some EmptyString => "/"
  | Some b =>
      "/" +:+ str.join "/" (filter (λ seg, seg ≠ EmptyString) (str.split "/" b))
          +:+ "/"
  end.

(** The base path [image_url_path] hands to [urljoin], and the file name. *)
Definition joined_base (path : option string) : string :=
  let path :=
    match path with
    | None => "/"
    | Some p => if str.nonempty p then p else "/"
    end in
  if negb (String.eqb path "/") then
    "/" +:+ str.join "/"
              (filter (λ p, str.nonempty p = true) (str.split "/" path))
        +:+ "/"
  else path.

Definition image_name (pub_id : string) : string :=
  hashlib.md5_hexdigest (hashlib.encode pub_id) +:+ ".png".

(** Characters that [urlsplit], [urlparse] and [urljoin] strip or split a
    reference at. *)
Definition reserved (c : ascii) : bool :=
  Ascii.eqb c "#" || Ascii.eqb c "?" || Ascii.eqb c ";" || Ascii.eqb c "/" ||
  Ascii.eqb c ":" || urllib.c0_control_or_space c.

Fixpoint plain (s : string) : bool :=
  match s with
  | EmptyString => true
  | String c s' => negb (reserved c) && plain s'
  end.

(** A string without tab, carriage return and line feed, the characters
    [urlsplit] removes. *)
Definition sanitary (s : string) : Prop :=
  urllib.every (λ c, negb (urllib.unsafe_byte c)) s = true.

(** The path of a base that has neither scheme nor network location: the
    text before its fragment, query and params. *)
Definition base_path (base : string) : string :=
  let '(url, _) := default (base, EmptyString) (str.partition "#" base) in
  let '(url, _) := default (url, EmptyString) (str.partition "?" url) in
  if urllib.contains ";" url then (urllib.splitparams url).1 else url.

(** A base path argument that is absent or sanitary. *)
Definition sanitary_base (path : option string) : Prop :=
  match path with
  | Some b => sanitary b
  | None => True
  end.

(** The directory [urljoin] puts a file name under: the path of the base
    without its last segment, inner empty segments dropped and dot segments
    resolved, with a closing slash unless nothing is left. *)
Definition url_dir (base : string) : string :=
  let parts := str.split "/" (base_path base) in
  let parts :=
    if str.nonempty (List.last parts EmptyString)
    then removelast parts else parts in
  let kept :=
    match parts with
    | [] => []
    | first :: others =>
        first :: filter (λ seg, str.nonempty seg = true) others
    end in
  match urllib.resolve kept with
  | [] => EmptyString
  | dirs => str.join "/" dirs +:+ "/"
  end.

(** A lowercase hexadecimal digit. *)
Definition hex_char (c : ascii) : Prop :=
  c ∈ list_ascii_of_string "0123456789abcdef".

(** A base-path segment that [urljoin] keeps as it is. *)
Definition clean_segment (seg : string) : Prop :=
  seg ≠ "." ∧ seg ≠ ".." ∧
  str.partition "#" seg = None ∧ str.partition "?" seg = None.

(** The records of a publication, as [word_counts] yields a document. *)
Definition stored_records (db : firestore.Client) (publ : string)
    : list WordCount :=
  record_of <$> docs_of db publ.

(** Count descending, then word ascending; equal keys allowed. *)
Definition in_query_order (a b : WordCount) : Prop :=
  count b < count a ∨
  (count a = count b ∧ String.compare (word a) (word b) ≠ Gt).

(** The synthetic record with count [i]. *)
Definition ent (i : Z) : WordCount := mkWordCount ("ent" +:+ pretty i) i.

(** The tab character as a string. *)
Definition TAB : string := String "009" EmptyString.

(** ** Stores used in the examples *)

Definition vox_db : firestore.Client :=
  firestore.mkClient
    {[ "vox" := [firestore.mkDoc "apple" 30; firestore.mkDoc "banana" 20;
                 firestore.mkDoc "cherry" 10] ]}.

(** A store whose only record has the empty word. *)
Definition blank_db : firestore.Client :=
  firestore.mkClient {[ "vox" := [firestore.mkDoc "" 5] ]}.

(** A store in which one word has two counts. *)
Definition twice_db : firestore.Client :=
  firestore.mkClient
    {[ "vox" := [firestore.mkDoc "apple" 5; firestore.mkDoc "pear" 4;
                 firestore.mkDoc "apple" 3] ]}.

(** * Properties *)

(** ** The library models agree with the libraries on known values *)

Example md5_empty :
  hashlib.md5_hexdigest (hashlib.encode "") =
  "d41d8cd98f00b204e9800998ecf8427e".
Proof. vm_compute. reflexivity. Qed.

Example md5_abc :
  hashlib.md5_hexdigest (hashlib.encode "abc") =
  "900150983cd24fb0d6963f7d28e17f72".
Proof. vm_compute. reflexivity. Qed.

Example md5_two_blocks :
  hashlib.md5_hexdigest
    (hashlib.encode
       "aaaaaaaaaaaaaaaaaaaaaaaaaaaaaaaaaaaaaaaaaaaaaaaaaaaaaaaa") =
  "3b0c8ac703f828b04c6c197006d17218".
Proof. vm_compute. reflexivity. Qed.

Example urljoin_sibling (ck : urllib.Checks) :
  urllib.urljoin ck "/a/b/c" "../d;p?q#f" = Ok "/a/d;p?q#f".
Proof. vm_compute. reflexivity. Qed.

Example urljoin_query (ck : urllib.Checks) :
  urllib.urljoin ck "/a/b/c;pp?bq#bf" "#f" = Ok "/a/b/c;pp?bq#f".
Proof. vm_compute. reflexivity. Qed.

Example urljoin_dots (ck : urllib.Checks) :
  urllib.urljoin ck "/a/b/c/" "./.." = Ok "/a/b/".
Proof. vm_compute. reflexivity. Qed.

Example urljoin_scheme (ck : urllib.Checks) :
  urllib.urljoin ck "http://h/a/b" "../c" = Ok "http://h/c" ∧
  urllib.urljoin ck "http://h/a" "ftp://g/x" = Ok "ftp://g/x" ∧
  urllib.urljoin ck "/a/" "mailto:x" = Ok "mailto:x".
Proof. repeat split; vm_compute; reflexivity. Qed.

Example urljoin_netloc (ck : urllib.Checks) :
  urllib.urljoin ck "//host/a/" "x.png" = Ok "//host/a/x.png".
Proof. vm_compute. reflexivity. Qed.

Example urljoin_tab (ck : urllib.Checks) :
  urllib.urljoin ck ("/a" +:+ TAB +:+ "b/") "x.png" = Ok "/ab/x.png".
Proof. vm_compute. reflexivity. Qed.

Example urljoin_bracket (ck : urllib.Checks) :
  urllib.urljoin ck ("/" +:+ TAB +:+ "/[/") "x.png" =
  Raise (ValueError "Invalid IPv6 URL").
Proof. vm_compute. reflexivity. Qed.

Example image_url_path_default (ck : urllib.Checks) :
  image_url_path ck "vox" None = Ok "/cd9a346bd6528176ced3ddbe105ec4d6.png".
Proof. vm_compute. reflexivity. Qed.

Example image_url_path_slashes (ck : urllib.Checks) :
  image_url_path ck "vox" (Some "//a///b") =
  Ok "/a/b/cd9a346bd6528176ced3ddbe105ec4d6.png".
Proof. vm_compute. reflexivity. Qed.

(** A tab in the base is removed by [urlsplit]; a base whose first segment
    is only a tab is read as a network location. *)
Example image_url_path_tab (ck : urllib.Checks) :
  image_url_path ck "vox" (Some ("a" +:+ TAB +:+ "b")) =
    Ok "/ab/cd9a346bd6528176ced3ddbe105ec4d6.png" ∧
  image_url_path ck "vox" (Some (TAB +:+ "/host/x")) =
    Ok "//host/x/cd9a346bd6528176ced3ddbe105ec4d6.png" ∧
  image_url_path ck "vox" (Some (TAB +:+ "/[")) =
    Raise (ValueError "Invalid IPv6 URL").
Proof. repeat split; vm_compute; reflexivity. Qed.

(** ** Lexicographic order on strings *)

Lemma ascii_compare_refl (a : ascii) : Ascii.compare a a = Eq.
Proof. unfold Ascii.compare. apply N.compare_refl. Qed.

Lemma ascii_compare_lt_trans (a b c : ascii) :
  Ascii.compare a b = Lt → Ascii.compare b c = Lt → Ascii.compare a c = Lt.
Proof.
  unfold Ascii.compare. rewrite !N.compare_lt_iff. apply N.lt_trans.
Qed.

Lemma string_compare_refl (s : string) : String.compare s s = Eq.
Proof.
  induction s as [|a s IH]; simpl; [done|]. by rewrite ascii_compare_refl.
Qed.

Lemma string_compare_lt_trans (s1 s2 s3 : string) :
  String.compare s1 s2 = Lt → String.compare s2 s3 = Lt →
  String.compare s1 s3 = Lt.
Proof.
  revert s2 s3. induction s1 as [|a s1 IH]; intros [|b s2] [|c s3]; simpl;
    try done.
  destruct (Ascii.compare a b) eqn:Hab; [|clear IH|done];
    destruct (Ascii.compare b c) eqn:Hbc; try done.
  - apply Ascii.compare_eq_iff in Hab, Hbc. subst.
    rewrite ascii_compare_refl. apply IH.
  - apply Ascii.compare_eq_iff in Hab. subst. by rewrite Hbc.
  - apply Ascii.compare_eq_iff in Hbc. subst. by rewrite Hab.
  - by rewrite (ascii_compare_lt_trans a b c).
Qed.

(** ** The query order is a strict total order on documents *)

Section query_order.
Import firestore.

Local Abbreviation cmp := (order_compare ent_orders).

Lemma cmp_unfold a b :
  cmp a b =
  match CompOpp (doc_count a ?= doc_count b) with
  | Eq => match String.compare (doc_word a) (doc_word b) with
          | Eq => Eq
          | c => c
          end
  | c => c
  end.
Proof. reflexivity. Qed.

Lemma cmp_lt_iff a b :
  cmp a b = Lt ↔
  doc_count b < doc_count a ∨
  (doc_count b = doc_count a ∧
   String.compare (doc_word a) (doc_word b) = Lt).
Proof.
  rewrite cmp_unfold.
  destruct (Z.compare_spec (doc_count a) (doc_count b)) as [He|Hl|Hg]; simpl.
  - destruct (String.compare _ _); split; try done;
      first [ intros [?|[_ ?]]; first [done|lia] | intros _; right; split; [lia|done] ].
  - split; [done|]. lia.
  - split; [|done]. intros _. left. lia.
Qed.

Lemma cmp_refl a : cmp a a = Eq.
Proof.
  rewrite cmp_unfold, Z.compare_refl. simpl. by rewrite string_compare_refl.
Qed.

Lemma cmp_eq a b : cmp a b = Eq → a = b.
Proof.
  rewrite cmp_unfold. destruct a as [wa ca], b as [wb cb]; simpl.
  destruct (Z.compare_spec ca cb); simpl; try done.
  destruct (String.compare wa wb) eqn:Hw; try done.
  apply String.compare_eq_iff in Hw. by subst.
Qed.

Lemma cmp_antisym a b : cmp a b = CompOpp (cmp b a).
Proof.
  rewrite !cmp_unfold.
  rewrite (Z.compare_antisym (doc_count a) (doc_count b)).
  rewrite (String.compare_antisym (doc_word a) (doc_word b)).
  destruct (doc_count a ?= doc_count b); simpl; try done.
  by destruct (String.compare (doc_word b) (doc_word a)).
Qed.

Lemma cmp_lt_trans a b c : cmp a b = Lt → cmp b c = Lt → cmp a c = Lt.
Proof.
  rewrite !cmp_lt_iff. intros [?|[? ?]] [?|[? ?]]; try (left; lia).
  right. split; [lia|]. eauto using string_compare_lt_trans.
Qed.

Global Instance ent_order_total : Total (order_le ent_orders).
Proof.
  intros a b. unfold order_le. rewrite (cmp_antisym b a).
  destruct (cmp a b); simpl; auto.
Qed.

Global Instance ent_order_trans : Transitive (order_le ent_orders).
Proof.
  intros a b c. unfold order_le.
  destruct (cmp a b) eqn:Hab; [| |done]; intros _.
  - apply cmp_eq in Hab. by subst.
  - destruct (cmp b c) eqn:Hbc; [| |done]; intros _.
    + apply cmp_eq in Hbc. subst. by rewrite Hab.
    + by rewrite (cmp_lt_trans a b c).
Qed.

(** Without ties the ordered collection is strictly increasing. *)
Lemma strict_of_NoDup l :
  NoDup l → StronglySorted (order_le ent_orders) l →
  StronglySorted (λ a b, cmp a b = Lt) l.
Proof.
  induction 2 as [|a l Hs IH Hall]; [constructor|].
  apply NoDup_cons in H as [Hnin Hnd]. constructor; [by apply IH|].
  apply Forall_forall. intros b Hb.
  rewrite Forall_forall in Hall. specialize (Hall b Hb).
  unfold order_le in Hall. destruct (cmp a b) eqn:Hab; try done.
  apply cmp_eq in Hab. by subst.
Qed.

(** Seeking after a document of a strictly increasing list leaves exactly
    what stands behind it. *)
Lemma seek_after l1 x l2 :
  StronglySorted (λ a b, cmp a b = Lt) (l1 ++ x :: l2) →
  filter (λ d, cmp x d = Lt) (l1 ++ x :: l2) = l2.
Proof.
  intros Hs. apply StronglySorted_app in Hs as (Hcross & _ & Hs2).
  apply StronglySorted_cons in Hs2 as [Hx _].
  rewrite filter_app.
  replace (filter (λ d, cmp x d = Lt) l1) with (@nil Doc).
  - rewrite app_nil_l.
    rewrite filter_cons_False by (cbv beta; by rewrite cmp_refl).
    induction l2 as [|y l2 IH]; [done|].
    apply Forall_cons in Hx as [Hy Hx].
    rewrite filter_cons_True by done. f_equal. apply IH; [|done].
    intros a b Ha Hb. apply Hcross; [done|].
    apply elem_of_cons in Hb as [->|Hb]; [by left|by do 2 right].
  - symmetry. induction l1 as [|y l1 IH]; [done|].
    rewrite filter_cons_False.
    + apply IH. intros a b Ha Hb. apply Hcross; [by right|done].
    + cbv beta. by rewrite (cmp_antisym x y), (Hcross y x); [|left..].
Qed.

End query_order.

(** ** What [DataStorage.word_counts] returns *)

Section word_counts_facts.
Import firestore.
Implicit Types (db : Client) (publ : string) (n k : Z).

Lemma word_counts_eq db publ n checkpoint :
  0 ≤ n →
  DataStorage.word_counts db publ n checkpoint =
  Ok (record_of <$> take (Z.to_nat n)
        (remaining (DataStorage.cursor_of checkpoint) (ordered_docs db publ))).
Proof.
  intros Hn. unfold DataStorage.word_counts, stream.
  destruct (DataStorage.cursor_of checkpoint); simpl;
    (destruct (Z.ltb_spec n 0); [lia|done]).
Qed.

Lemma word_counts_negative db publ n checkpoint :
  n < 0 → DataStorage.word_counts db publ n checkpoint = Raise InvalidArgument.
Proof.
  intros Hn. unfold DataStorage.word_counts, stream.
  destruct (DataStorage.cursor_of checkpoint); simpl;
    (destruct (Z.ltb_spec n 0); [done|lia]).
Qed.

Lemma cursor_of_record d :
  doc_word d ≠ EmptyString →
  DataStorage.cursor_of (Some (checkpoint_of (record_of d))) = Some d.
Proof. destruct d as [[|a w] c]; simpl; [done|]. reflexivity. Qed.

Global Instance record_of_inj : Inj (=) (=) record_of.
Proof. intros [w1 c1] [w2 c2]. unfold record_of; simpl. congruence. Qed.

Lemma ordered_docs_perm db publ : ordered_docs db publ ≡ₚ docs_of db publ.
Proof. apply merge_sort_Permutation. Qed.

Lemma ordered_docs_strict db publ :
  NoDup (docs_of db publ) →
  StronglySorted (λ a b, order_compare ent_orders a b = Lt)
    (ordered_docs db publ).
Proof.
  intros Hnd. apply strict_of_NoDup.
  - by rewrite ordered_docs_perm.
  - apply (StronglySorted_merge_sort _).
Qed.

(** Paging from any point of the ordered collection returns what is left
    of it. *)
Lemma paginate_rest db publ k :
  0 < k →
  NoDup (docs_of db publ) →
  Forall (λ d, doc_word d ≠ EmptyString) (docs_of db publ) →
  ∀ fuel checkpoint done rest,
    ordered_docs db publ = done ++ rest →
    remaining (DataStorage.cursor_of checkpoint) (ordered_docs db publ) = rest →
    (length rest < fuel)%nat →
    paginate fuel db publ k checkpoint = Some (record_of <$> rest).
Proof.
  intros Hk Hnd Hwords.
  pose proof (ordered_docs_strict db publ Hnd) as Hstrict.
  induction fuel as [|fuel IH]; intros checkpoint done rest Hsplit Hrem Hlen;
    [lia|].
  simpl. rewrite word_counts_eq by lia. rewrite Hrem, fmap_last.
  destruct (last (take (Z.to_nat k) rest)) as [y|] eqn:Hlast; simpl.
  - apply last_Some in Hlast as [page Hpage].
    assert (Hshort : (length (drop (Z.to_nat k) rest) < fuel)%nat).
    { rewrite length_drop.
      destruct rest; [rewrite take_nil in Hpage; by destruct page|].
      simpl in *. lia. }
    remember (drop (Z.to_nat k) rest) as behind eqn:Hbehind.
    assert (Hrest : rest = page ++ y :: behind).
    { rewrite <-(take_drop (Z.to_nat k) rest).
      by rewrite Hpage, <-Hbehind, <-app_assoc. }
    assert (Hy : doc_word y ≠ EmptyString).
    { rewrite Forall_forall in Hwords. apply Hwords.
      rewrite <-ordered_docs_perm, Hsplit, Hrest.
      rewrite !elem_of_app. right. right. by left. }
    rewrite (IH _ (done ++ page ++ [y]) behind); [|..|done].
    + simpl. by rewrite <-fmap_app, Hbehind, take_drop.
    + rewrite Hsplit, Hrest, <-!app_assoc. done.
    + rewrite cursor_of_record by done. simpl.
      rewrite Hsplit, Hrest, app_assoc in Hstrict |- *.
      by apply seek_after.
  - apply last_None in Hlast.
    destruct rest as [|d rest]; [done|].
    destruct (Z.to_nat k) eqn:Hkn; [lia|done].
Qed.

End word_counts_facts.

(** ** Pagination *)

(** C1, as amended: for a page size k > 0 and a store without ties in which
    no word is empty, paging through [word_counts] with the last record of
    each page as the next checkpoint terminates and returns exactly the
    sequence an unbounded call without checkpoint returns, which has no
    duplicates. *)
Theorem pagination_complete (db : firestore.Client) (publ : string) (k : Z) :
  0 < k →
  NoDup (docs_of db publ) →
  Forall (λ d, firestore.doc_word d ≠ EmptyString) (docs_of db publ) →
  let full := record_of <$> ordered_docs db publ in
  (∀ n, Z.of_nat (length (docs_of db publ)) ≤ n →
        DataStorage.word_counts db publ n None = Ok full) ∧
  (∀ fuel, (length (docs_of db publ) < fuel)%nat →
           paginate fuel db publ k None = Some full) ∧
  NoDup full.
Proof.
  intros Hk Hnd Hwords full. split; [|split].
  - intros n Hn. rewrite word_counts_eq by lia. simpl.
    rewrite take_ge; [done|].
    rewrite (Permutation_length (ordered_docs_perm db publ)). lia.
  - intros fuel Hfuel.
    apply (paginate_rest db publ k Hk Hnd Hwords fuel None []); [done..|].
    by rewrite (Permutation_length (ordered_docs_perm db publ)).
  - apply (NoDup_fmap_2 _). by rewrite ordered_docs_perm.
Qed.

Lemma pagination_complete_witness :
  0 < 2 ∧
  NoDup (docs_of vox_db "vox") ∧
  Forall (λ d, firestore.doc_word d ≠ EmptyString) (docs_of vox_db "vox") ∧
  paginate 4 vox_db "vox" 2 None =
  Some [mkWordCount "apple" 30; mkWordCount "banana" 20;
        mkWordCount "cherry" 10].
Proof.
  assert (Hdocs : docs_of vox_db "vox" =
                  [firestore.mkDoc "apple" 30; firestore.mkDoc "banana" 20;
                   firestore.mkDoc "cherry" 10]) by reflexivity.
  assert (Hk : 0 < 2) by lia.
  assert (Hnd : NoDup (docs_of vox_db "vox")).
  { rewrite Hdocs. apply (bool_decide_unpack _). vm_compute. exact I. }
  assert (Hwords : Forall (λ d, firestore.doc_word d ≠ EmptyString)
                     (docs_of vox_db "vox")).
  { rewrite Hdocs. repeat constructor; discriminate. }
  split; [exact Hk|]. split; [exact Hnd|]. split; [exact Hwords|].
  destruct (pagination_complete vox_db "vox" 2 Hk Hnd Hwords)
    as (_ & Hpages & _).
  rewrite Hpages; [reflexivity|]. rewrite Hdocs. simpl. lia.
Defined.

(** C1 as stated fails: a record with the empty word makes a falsy
    checkpoint, so the next call starts over and returns the same page; the
    paging never ends. *)
Lemma pagination_restarts_on_empty_word :
  NoDup (docs_of blank_db "vox") ∧
  DataStorage.word_counts blank_db "vox" 1 None = Ok [mkWordCount "" 5] ∧
  DataStorage.word_counts blank_db "vox" 1
    (Some (checkpoint_of (mkWordCount "" 5))) = Ok [mkWordCount "" 5] ∧
  ¬ ∃ fuel, paginate fuel blank_db "vox" 1 None = Some [mkWordCount "" 5].
Proof.
  split; [|split; [reflexivity|split; [reflexivity|]]].
  - apply (bool_decide_unpack _). vm_compute. exact I.
  - assert (Hloop : ∀ fuel,
      paginate fuel blank_db "vox" 1 None = None ∧
      paginate fuel blank_db "vox" 1
        (Some (checkpoint_of (mkWordCount "" 5))) = None).
    { induction fuel as [|fuel [_ IH]]; [done|].
      assert (Hstep : ∀ cp,
        DataStorage.word_counts blank_db "vox" 1 cp = Ok [mkWordCount "" 5] →
        paginate (S fuel) blank_db "vox" 1 cp = None).
      { intros cp Hcp. simpl. rewrite Hcp. simpl. by rewrite IH. }
      split; apply Hstep; reflexivity. }
    intros [fuel Hfuel]. destruct (Hloop fuel) as [Hnone _]. congruence.
Qed.

(** ** Bounds *)

(** C2, as amended: for n >= 0 [DataStorage.word_counts] returns at most n
    records, none for n = 0.  [NoOpDataStorage.word_counts] ignores n: a
    call without checkpoint returns ten records whatever n is, and a call
    that returns has at most ten records when the count of its checkpoint,
    if any, is at least -1. *)
Theorem word_counts_bounds (db : firestore.Client) (publ : string) (n : Z)
    (checkpoint : option Checkpoint) :
  0 ≤ n →
  (∃ l, DataStorage.word_counts db publ n checkpoint = Ok l ∧
        Z.of_nat (length l) ≤ n ∧ (n = 0 → l = [])) ∧
  (∀ l, NoOpDataStorage.word_counts publ n checkpoint = Ok l →
        (∀ w c, checkpoint = Some (w, Some c) → -1 ≤ c) →
        (length l ≤ 10)%nat) ∧
  (∃ l, NoOpDataStorage.word_counts publ n None = Ok l ∧ length l = 10%nat).
Proof.
  intros Hn. split; [|split].
  - eexists. split; [by apply word_counts_eq|].
    rewrite length_fmap, length_take. split; [lia|].
    intros ->. by rewrite take_0.
  - intros l Hl Hc. unfold NoOpDataStorage.word_counts in Hl.
    destruct checkpoint as [[[w|] [c|]]|]; simpl in Hl; try discriminate;
      injection Hl as <-;
      first [ rewrite length_fmap; unfold NoOpDataStorage.range_to_10;
              rewrite length_seqZ; specialize (Hc _ _ eq_refl); lia
            | simpl; lia ].
  - eexists. split; [reflexivity|]. reflexivity.
Qed.

Lemma word_counts_bounds_witness :
  0 ≤ 2 ∧
  ∃ l, DataStorage.word_counts vox_db "vox" 2 None = Ok l ∧
       Z.of_nat (length l) ≤ 2 ∧ (2 = 0 → l = []).
Proof.
  assert (Hn : 0 ≤ 2) by lia. split; [exact Hn|].
  exact (proj1 (word_counts_bounds vox_db "vox" 2 None Hn)).
Defined.

(** C2 as stated fails for the synthetic store: asked for 0 records it
    returns ten, and resumed behind a negative count it returns more than
    ten. *)
Lemma noop_ignores_top_n :
  (∃ l, NoOpDataStorage.word_counts "vox" 0 None = Ok l ∧
        length l = 10%nat) ∧
  (∃ l, NoOpDataStorage.word_counts "vox" 10 (Some (Some "a", Some (-5))) = Ok l ∧
        length l = 14%nat).
Proof. split; eexists; (split; [reflexivity|reflexivity]). Qed.

(** ** Checkpoints *)

(** C3, as amended: [DataStorage.word_counts] treats a checkpoint whose
    word is falsy or whose count is [None] as no checkpoint.
    [NoOpDataStorage.word_counts] treats only the checkpoint (None, None)
    so; with a count c it resumes at c + 1 whatever the word is. *)
Theorem malformed_checkpoint_fallback (db : firestore.Client) (publ : string)
    (n : Z) (w : option string) (c : option Z) :
  (truthy w = false ∨ c = None →
   DataStorage.word_counts db publ n (Some (w, c)) =
   DataStorage.word_counts db publ n None) ∧
  NoOpDataStorage.word_counts publ n (Some (None, None)) =
  NoOpDataStorage.word_counts publ n None ∧
  (∀ c', c = Some c' →
         NoOpDataStorage.word_counts publ n (Some (w, c)) =
         Ok ((λ i, mkWordCount ("ent" +:+ pretty i) i) <$> seqZ (c' + 1) (9 - c'))).
Proof.
  split; [|split].
  - intros Hmal. unfold DataStorage.word_counts.
    replace (DataStorage.cursor_of (Some (w, c))) with (@None firestore.Doc);
      [done|].
    destruct Hmal as [Hw| ->]; [|by destruct w].
    by destruct w as [[|a w]|], c.
  - reflexivity.
  - intros c' ->. replace (9 - c') with (10 - (c' + 1)) by lia.
    by destruct w.
Qed.

Lemma malformed_checkpoint_fallback_witness :
  (truthy None = false ∨ Some 5 = None) ∧
  DataStorage.word_counts vox_db "vox" 2 (Some (None, Some 5)) =
  DataStorage.word_counts vox_db "vox" 2 None.
Proof.
  assert (H : truthy None = false ∨ Some 5 = @None Z) by (left; reflexivity).
  split; [exact H|].
  exact (proj1 (malformed_checkpoint_fallback vox_db "vox" 2 None (Some 5)) H).
Defined.

(** C3 as stated fails for the synthetic store: the checkpoint (None, 5)
    resumes at 6 instead of starting from the beginning. *)
Lemma noop_resumes_on_partial_checkpoint :
  NoOpDataStorage.word_counts "vox" 10 (Some (None, Some 5)) =
  Ok [mkWordCount "ent6" 6; mkWordCount "ent7" 7; mkWordCount "ent8" 8;
      mkWordCount "ent9" 9] ∧
  NoOpDataStorage.word_counts "vox" 10 (Some (None, Some 5)) ≠
  NoOpDataStorage.word_counts "vox" 10 None.
Proof. split; [reflexivity|]. vm_compute. discriminate. Qed.

Lemma cursor_of_full (w : string) (c : Z) :
  w ≠ EmptyString →
  DataStorage.cursor_of (Some (Some w, Some c)) = Some (firestore.mkDoc w c).
Proof. by destruct w. Qed.

Lemma remaining_follow (w : string) (c : Z) (l : list firestore.Doc) :
  Forall (follows c w ∘ record_of) (remaining (Some (firestore.mkDoc w c)) l).
Proof.
  apply Forall_forall. intros d [Hd _]%list_elem_of_filter.
  apply cmp_lt_iff in Hd. exact Hd.
Qed.

(** C4: with n > 0 and a checkpoint (w, c) of a non-empty word and a count,
    whose key occurs in the store, [DataStorage.word_counts] returns, and
    every record it returns, the first one in particular, strictly follows
    (c, w) in the order count descending, word ascending. *)
Theorem resumption_exact (db : firestore.Client) (publ : string) (n : Z)
    (w : string) (c : Z) :
  0 < n →
  w ≠ EmptyString →
  firestore.mkDoc w c ∈ docs_of db publ →
  ∃ l, DataStorage.word_counts db publ n (Some (Some w, Some c)) = Ok l ∧
       (∀ r, head l = Some r → follows c w r) ∧
       Forall (follows c w) l.
Proof.
  intros Hn Hw _. eexists. split; [apply word_counts_eq; lia|].
  assert (Hall : Forall (follows c w)
    (record_of <$> take (Z.to_nat n)
       (remaining (DataStorage.cursor_of (Some (Some w, Some c)))
          (ordered_docs db publ)))).
  { rewrite cursor_of_full by done.
    apply Forall_fmap, Forall_take, remaining_follow. }
  split; [|exact Hall].
  intros r Hr. rewrite Forall_forall in Hall. apply Hall.
  by apply head_Some_elem_of.
Qed.

Lemma resumption_exact_witness :
  0 < 2 ∧ "apple" ≠ EmptyString ∧
  firestore.mkDoc "apple" 30 ∈ docs_of vox_db "vox" ∧
  ∃ l, DataStorage.word_counts vox_db "vox" 2 (Some (Some "apple", Some 30)) = Ok l ∧
       (∀ r, head l = Some r → follows 30 "apple" r) ∧
       Forall (follows 30 "apple") l.
Proof.
  assert (Hn : 0 < 2) by lia.
  assert (Hw : "apple" ≠ EmptyString) by discriminate.
  assert (Hin : firestore.mkDoc "apple" 30 ∈ docs_of vox_db "vox").
  { change (docs_of vox_db "vox") with
      [firestore.mkDoc "apple" 30; firestore.mkDoc "banana" 20;
       firestore.mkDoc "cherry" 10]. by left. }
  split; [exact Hn|]. split; [exact Hw|]. split; [exact Hin|].
  exact (resumption_exact vox_db "vox" 2 "apple" 30 Hn Hw Hin).
Defined.

(** C6: a checkpoint (w, 0) with a non-empty word is a full checkpoint: the
    query seeks after the key (0, w) and does not start from the
    beginning. *)
Theorem zero_count_checkpoint (db : firestore.Client) (publ : string) (n : Z)
    (w : string) :
  w ≠ EmptyString →
  DataStorage.cursor_of (Some (Some w, Some 0)) = Some (firestore.mkDoc w 0) ∧
  DataStorage.word_counts db publ n (Some (Some w, Some 0)) =
  (docs ← firestore.stream
     (firestore.start_after
        (firestore.limit
           (firestore.order_by
              (firestore.order_by (firestore.collection_ent db publ)
                 firestore.F_count firestore.DESCENDING)
              firestore.F_word firestore.ASCENDING) n)
        (firestore.mkDoc w 0));
   Ok (record_of <$> (docs : list firestore.Doc))) ∧
  (0 ≤ n →
   ∃ l, DataStorage.word_counts db publ n (Some (Some w, Some 0)) = Ok l ∧
        Forall (follows 0 w) l).
Proof.
  intros Hw. split; [by apply cursor_of_full|]. split.
  - unfold DataStorage.word_counts. by rewrite cursor_of_full.
  - intros Hn. eexists. split; [by apply word_counts_eq|].
    rewrite cursor_of_full by done.
    apply Forall_fmap, Forall_take, remaining_follow.
Qed.

Lemma zero_count_checkpoint_witness :
  "b" ≠ EmptyString ∧
  DataStorage.cursor_of (Some (Some "b", Some 0)) = Some (firestore.mkDoc "b" 0).
Proof.
  assert (Hw : "b" ≠ EmptyString) by discriminate.
  split; [exact Hw|].
  exact (proj1 (zero_count_checkpoint vox_db "vox" 2 "b" Hw)).
Defined.

(** C10: the synthetic store raises [TypeError] on every checkpoint whose
    count is [None] and which is not (None, None). *)
Theorem noop_type_error (publ : string) (n : Z) (w : option string) :
  (w, @None Z) ≠ (None, None) →
  NoOpDataStorage.word_counts publ n (Some (w, None)) = Raise TypeError.
Proof. intros Hw. by destruct w. Qed.

Lemma noop_type_error_witness :
  (Some "apple", @None Z) ≠ (None, None) ∧
  NoOpDataStorage.word_counts "vox" 10 (Some (Some "apple", None)) =
  Raise TypeError.
Proof.
  assert (H : (Some "apple", @None Z) ≠ (None, None)) by discriminate.
  split; [exact H|]. exact (noop_type_error "vox" 10 (Some "apple") H).
Defined.

(** ** The blob sink *)

(** C5 does not hold of the code: [save] calls [pub_to_url], a name the
    module never binds, so every call raises [NameError] and the bucket is
    left as it was. *)
Theorem blob_save_raises (ck : urllib.Checks) (blob : storage.Client)
    (publ bucket : string) (ibytes : list Z) :
  BlobStorage.save ck blob publ bucket ibytes =
  (Raise (NameError "pub_to_url"), blob).
Proof. reflexivity. Qed.

(** ** The end-to-end scenario *)

(** C7: the three records of "vox" page as two and two, and the image path
    under "/img/" is the hex MD5 digest of "vox" with the extension. *)
Theorem vox_scenario (ck : urllib.Checks) :
  docs_of vox_db "vox" =
    [firestore.mkDoc "apple" 30; firestore.mkDoc "banana" 20;
     firestore.mkDoc "cherry" 10] ∧
  DataStorage.word_counts vox_db "vox" 2 None =
    Ok [mkWordCount "apple" 30; mkWordCount "banana" 20] ∧
  DataStorage.word_counts vox_db "vox" 2 (Some (Some "apple", Some 30)) =
    Ok [mkWordCount "banana" 20; mkWordCount "cherry" 10] ∧
  image_url_path ck "vox" (Some "/img/") =
    Ok ("/img/" +:+ hashlib.md5_hexdigest (hashlib.encode "vox") +:+ ".png") ∧
  hashlib.md5_hexdigest (hashlib.encode "vox") =
    "cd9a346bd6528176ced3ddbe105ec4d6".
Proof. repeat split; vm_compute; reflexivity. Qed.

(** ** Rendering formats *)

Lemma lower_formats :
  str.lower "raw" = "raw" ∧ str.lower "image" = "image" ∧
  str.lower "bytes" = "bytes".
Proof. by vm_compute. Qed.

(** C9, as amended: when the layout is built and fitted without error,
    [generate_word_cloud] returns the fitted layout for raw, goes on to the
    image for image and to its PNG encoding for bytes, and raises the
    unsupported-format error for every other format, compared
    case-insensitively; when the image and the encoding succeed too, that
    error is raised for no recognised format and each of the three returns
    its representation. *)
Theorem format_dispatch {Layout Image : Type}
    (WordCloud : Z → Z → result Layout)
    (fit_words : Layout → gmap string Z → result Layout)
    (to_image : Layout → result Image)
    (image_save : Image → string → result (list Z))
    (freqs : gmap string Z) (fmt : string) (height width : Z)
    (wc0 wc : Layout) :
  WordCloud height width = Ok wc0 →
  fit_words wc0 freqs = Ok wc →
  let run := generate_word_cloud WordCloud fit_words to_image image_save
               freqs fmt height width in
  let known := caseless_eq fmt "raw" ∨ caseless_eq fmt "image" ∨
               caseless_eq fmt "bytes" in
  (caseless_eq fmt "raw" → run = Ok (Raw wc)) ∧
  (caseless_eq fmt "image" → run = (image ← to_image wc; Ok (Picture image))) ∧
  (caseless_eq fmt "bytes" →
   run = (image ← to_image wc; data ← image_save image "png";
          Ok (Bytes data))) ∧
  (¬ known → run = Raise (ValueError "unsupported fmt value.")) ∧
  (∀ image data,
     to_image wc = Ok image → image_save image "png" = Ok data →
     (run = Raise (ValueError "unsupported fmt value.") ↔ ¬ known) ∧
     (caseless_eq fmt "image" → run = Ok (Picture image)) ∧
     (caseless_eq fmt "bytes" → run = Ok (Bytes data))).
Proof.
  intros Hbuild Hfit run known. subst run known.
  unfold generate_word_cloud, image_to_byte_array, caseless_eq.
  rewrite Hbuild. cbn [mbind result_bind]. rewrite Hfit.
  cbn [mbind result_bind].
  destruct lower_formats as (-> & -> & ->).
  generalize (str.lower fmt) as f. intros f.
  destruct (String.eqb_spec f "raw") as [->|Hraw].
  { split; [done|]. split; [done|]. split; [done|].
    split; [intros H; destruct H; by left|].
    intros image data _ _. split; [|done].
    split; [done|]. intros H. destruct H. by left. }
  destruct (String.eqb_spec f "image") as [->|Himage].
  { split; [done|]. split; [done|]. split; [done|].
    split; [intros H; destruct H; right; by left|].
    intros image data -> _. cbn [mbind result_bind].
    split; [|done].
    split; [done|]. intros H. destruct H. right. by left. }
  destruct (String.eqb_spec f "bytes") as [->|Hbytes].
  { split; [done|]. split; [done|]. split; [done|].
    split; [intros H; destruct H; right; by right|].
    intros image data Himg Hsave. rewrite Himg. cbn [mbind result_bind].
    rewrite Hsave. cbn [mbind result_bind].
    split; [|done].
    split; [done|]. intros H. destruct H. right. by right. }
  split; [done|]. split; [done|]. split; [done|]. split; [done|].
  intros image data _ _. split; [|done].
  split; [|done]. intros _ [?|[?|?]]; done.
Qed.

Lemma format_dispatch_witness :
  sample_renderer.WordCloud 500 500 = Ok (500, 500, ∅) ∧
  sample_renderer.fit_words (500, 500, ∅) {[ "apple" := 30 ]} =
    Ok (500, 500, {[ "apple" := 30 ]}) ∧
  caseless_eq "BYTES" "bytes" ∧
  sample_renderer.render {[ "apple" := 30 ]} "BYTES" 500 500 =
    Ok (Bytes [137; 80; 78; 71; 13; 10; 26; 10]).
Proof.
  assert (Hbuild : sample_renderer.WordCloud 500 500 = Ok (500, 500, ∅))
    by reflexivity.
  assert (Hfit : sample_renderer.fit_words (500, 500, ∅) {[ "apple" := 30 ]} =
                 Ok (500, 500, {[ "apple" := 30 ]})) by reflexivity.
  assert (Hfmt : caseless_eq "BYTES" "bytes") by reflexivity.
  split; [exact Hbuild|]. split; [exact Hfit|]. split; [exact Hfmt|].
  pose proof (format_dispatch sample_renderer.WordCloud
    sample_renderer.fit_words sample_renderer.to_image
    sample_renderer.image_save {[ "apple" := 30 ]} "BYTES" 500 500 _ _
    Hbuild Hfit) as H.
  cbv zeta in H. destruct H as (_ & _ & _ & _ & H).
  exact (proj2 (proj2 (H (500, 500, {[ "apple" := 30 ]})
    [137; 80; 78; 71; 13; 10; 26; 10] eq_refl eq_refl)) Hfmt).
Defined.

(** C9 as stated fails on the empty mapping: [fit_words] raises before the
    format is looked at, so a recognised format does not return and an
    unrecognised one does not raise the unsupported-format error. *)
Lemma render_fails_on_empty_mapping :
  sample_renderer.render ∅ "raw" 500 500 =
    Raise (ValueError "We need at least 1 word to plot a word cloud, got 0.") ∧
  sample_renderer.render ∅ "xml" 500 500 =
    Raise (ValueError "We need at least 1 word to plot a word cloud, got 0.") ∧
  sample_renderer.render ∅ "xml" 500 500 ≠
    Raise (ValueError "unsupported fmt value.").
Proof. split; [reflexivity|]. split; [reflexivity|]. discriminate. Qed.

(** ** The image path *)

Lemma image_url_path_eq (ck : urllib.Checks) (pub_id : string)
    (path : option string) :
  image_url_path ck pub_id path =
  urllib.urljoin ck (joined_base path) (image_name pub_id).
Proof. reflexivity. Qed.

(** *** The file name has no reserved character *)

Lemma plain_app (s1 s2 : string) :
  plain (s1 +:+ s2) = plain s1 && plain s2.
Proof.
  induction s1 as [|c s1 IH]; simpl; [done|].
  by rewrite IH, andb_assoc.
Qed.

Lemma hex_digit_plain (x : Z) :
  0 ≤ x < 16 → reserved (hashlib.hex_digit x) = false.
Proof.
  intros Hx.
  assert (Hcases : x = 0 ∨ x = 1 ∨ x = 2 ∨ x = 3 ∨ x = 4 ∨ x = 5 ∨ x = 6 ∨
                   x = 7 ∨ x = 8 ∨ x = 9 ∨ x = 10 ∨ x = 11 ∨ x = 12 ∨
                   x = 13 ∨ x = 14 ∨ x = 15) by lia.
  repeat (destruct Hcases as [->|Hcases]; [reflexivity|]).
  by subst.
Qed.

Lemma hex_plain (bytes : list Z) :
  Forall (λ b, 0 ≤ b < 256) bytes → plain (hashlib.hex bytes) = true.
Proof.
  induction 1 as [|b bytes Hb _ IH]; simpl; [done|].
  rewrite !hex_digit_plain, IH; [done| |].
  - change 0xf with (Z.ones 4). rewrite Z.land_ones by lia.
    apply Z.mod_pos_bound. lia.
  - rewrite Z.shiftr_div_pow2 by lia. change (2 ^ 4) with 16.
    split; [apply Z.div_pos; lia|apply Z.div_lt_upper_bound; lia].
Qed.

Lemma le_bytes_range (n : nat) (x : Z) :
  Forall (λ b, 0 ≤ b < 256) (hashlib.le_bytes n x).
Proof.
  unfold hashlib.le_bytes. apply Forall_forall.
  intros b (i & -> & _)%list_elem_of_fmap.
  change 0xff with (Z.ones 8). rewrite Z.land_ones by lia.
  apply Z.mod_pos_bound. lia.
Qed.

Lemma md5_range (msg : list Z) :
  Forall (λ b, 0 ≤ b < 256) (hashlib.md5 msg).
Proof.
  unfold hashlib.md5. destruct (foldl _ _ _) as [[[a b] c] d].
  repeat apply Forall_app_2; apply le_bytes_range.
Qed.

Lemma image_name_plain (pub_id : string) : plain (image_name pub_id) = true.
Proof.
  unfold image_name, hashlib.md5_hexdigest.
  rewrite plain_app, hex_plain; [done|]. apply md5_range.
Qed.

Lemma image_name_nonempty (pub_id : string) :
  image_name pub_id ≠ EmptyString.
Proof.
  unfold image_name. by destruct (hashlib.md5_hexdigest _).
Qed.

(** *** Joining a plain file name *)

Lemma plain_cons (c : ascii) (s : string) :
  plain (String c s) = true ↔ reserved c = false ∧ plain s = true.
Proof.
  change (plain (String c s)) with (negb (reserved c) && plain s).
  rewrite andb_true_iff, negb_true_iff. done.
Qed.

Lemma partition_plain (sep : ascii) (s : string) :
  reserved sep = true → plain s = true → str.partition sep s = None.
Proof.
  intros Hsep. induction s as [|c s IH]; [done|].
  intros [Hc Hs]%plain_cons. cbn [str.partition]. rewrite IH by done.
  destruct (Ascii.eqb_spec c sep) as [->|]; [|done].
  by rewrite Hsep in Hc.
Qed.

Lemma split_plain (s : string) :
  plain s = true → str.split "/" s = [s].
Proof.
  induction s as [|c s IH]; [done|].
  intros [Hc Hs]%plain_cons. cbn [str.split]. rewrite IH by done.
  destruct (Ascii.eqb_spec c "/") as [->|]; done.
Qed.

Lemma contains_plain (sep : ascii) (s : string) :
  reserved sep = true → plain s = true → urllib.contains sep s = false.
Proof.
  intros Hsep. induction s as [|c s IH]; [done|].
  intros [Hc Hs]%plain_cons. cbn [urllib.contains]. rewrite IH by done.
  destruct (Ascii.eqb_spec c sep) as [->|]; [|done].
  by rewrite Hsep in Hc.
Qed.

Lemma unsafe_reserved (c : ascii) :
  urllib.unsafe_byte c = true → reserved c = true.
Proof.
  unfold urllib.unsafe_byte. intros H.
  repeat apply orb_prop in H as [H|H]; apply Ascii.eqb_eq in H as ->;
    reflexivity.
Qed.

Lemma remove_unsafe_plain (s : string) :
  plain s = true → urllib.remove_unsafe s = s.
Proof.
  induction s as [|c s IH]; [done|].
  intros [Hc Hs]%plain_cons. cbn [urllib.remove_unsafe]. rewrite IH by done.
  destruct (urllib.unsafe_byte c) eqn:Hu; [|done].
  apply unsafe_reserved in Hu. congruence.
Qed.

Lemma lstrip_plain (s : string) :
  plain s = true → urllib.lstrip s = s.
Proof.
  destruct s as [|c s]; [done|].
  intros [Hc Hs]%plain_cons. cbn [urllib.lstrip].
  destruct (urllib.c0_control_or_space c) eqn:Hu; [|done].
  unfold reserved in Hc. rewrite Hu, orb_true_r in Hc. done.
Qed.

Lemma prefix_slash_plain (name : string) :
  plain name = true → String.prefix "/" name = false.
Proof.
  destruct name as [|c name]; [done|]. intros [Hc _]%plain_cons.
  cbn [String.prefix].
  destruct (Ascii.ascii_dec "/" c) as [<-|]; [|done]. done.
Qed.

Lemma prefix_slashes_plain (name : string) :
  plain name = true → String.prefix "//" name = false.
Proof.
  destruct name as [|c name]; [done|]. intros [Hc _]%plain_cons.
  cbn [String.prefix].
  destruct (Ascii.ascii_dec "/" c) as [<-|]; [|done]. done.
Qed.

Lemma urlsplit_plain (ck : urllib.Checks) (s : string) :
  plain s = true →
  urllib.urlsplit ck s EmptyString =
    Ok (urllib.mkSplitResult EmptyString EmptyString s EmptyString
          EmptyString).
Proof.
  intros Hs. unfold urllib.urlsplit.
  rewrite lstrip_plain, remove_unsafe_plain by done.
  rewrite (partition_plain ":") by done.
  rewrite prefix_slashes_plain by done.
  cbn [mbind result_bind].
  rewrite (partition_plain "#") by done. cbn [default from_option id].
  rewrite (partition_plain "?") by done. cbn [default from_option id].
  reflexivity.
Qed.

Lemma urlparse_plain (ck : urllib.Checks) (s : string) :
  plain s = true →
  urllib.urlparse ck s EmptyString =
    Ok (urllib.mkParseResult EmptyString EmptyString s EmptyString
          EmptyString EmptyString).
Proof.
  intros Hs. unfold urllib.urlparse. rewrite urlsplit_plain by done.
  cbn [mbind result_bind urllib.s_path urllib.s_scheme urllib.s_netloc
       urllib.s_query urllib.s_fragment].
  rewrite (contains_plain ";") by done. by rewrite andb_false_r.
Qed.

(** Under the root it makes no difference whether the base is one slash or
    two. *)
Lemma urljoin_root (ck : urllib.Checks) (name : string) :
  plain name = true → name ≠ EmptyString →
  urllib.urljoin ck "/" name = urllib.urljoin ck "//" name.
Proof.
  intros Hplain Hname. destruct name as [|c name]; [done|].
  unfold urllib.urljoin. cbn [str.nonempty negb].
  change (urllib.urlparse ck "/" "") with
    (Ok (urllib.mkParseResult "" "" "/" "" "" "")).
  change (urllib.urlparse ck "//" "") with
    (Ok (urllib.mkParseResult "" "" "" "" "" "")).
  cbn [mbind result_bind urllib.p_scheme].
  rewrite !urlparse_plain by done.
  cbn [mbind result_bind urllib.p_scheme urllib.p_netloc urllib.p_path
       urllib.p_params urllib.p_query urllib.p_fragment].
  rewrite split_plain by done. reflexivity.
Qed.

(** *** The two normalisations *)

Lemma joined_base_canonical (base : option string) :
  base ≠ Some "/" → joined_base base = canonical_base base.
Proof.
  intros Hbase. destruct base as [[|c s]|]; try done.
  assert (Hne : String.eqb (String c s) "/" = false)
    by (apply String.eqb_neq; congruence).
  change (joined_base (Some (String c s))) with
    (if negb (String.eqb (String c s) "/") then
       "/" +:+ str.join "/"
                 (filter (λ p, str.nonempty p = true)
                    (str.split "/" (String c s)))
           +:+ "/"
     else String c s).
  rewrite Hne. cbn [negb canonical_base]. do 3 f_equal.
  apply list_filter_iff. intros seg. by destruct seg.
Qed.

Lemma urljoin_canonical (ck : urllib.Checks) (name : string)
    (b1 b2 : option string) :
  plain name = true → name ≠ EmptyString →
  canonical_base b1 = canonical_base b2 →
  urllib.urljoin ck (joined_base b1) name =
  urllib.urljoin ck (joined_base b2) name.
Proof.
  intros Hplain Hname Hcanon.
  pose proof (urljoin_root ck name Hplain Hname) as Hroot.
  destruct (decide (b1 = Some "/")) as [->|H1];
    destruct (decide (b2 = Some "/")) as [->|H2].
  - reflexivity.
  - rewrite (joined_base_canonical b2 H2), <-Hcanon. exact Hroot.
  - rewrite (joined_base_canonical b1 H1), Hcanon. symmetry. exact Hroot.
  - by rewrite !joined_base_canonical, Hcanon.
Qed.

(** C8: base paths with the same canonical form give the same image path
    for every publication id, or the same error where [urljoin] rejects the
    base.  The result is a function of the publication id and the base, so
    equal arguments always give the same string. *)
Theorem base_normalisation (ck : urllib.Checks) (pub_id : string)
    (b1 b2 : option string) :
  canonical_base b1 = canonical_base b2 →
  image_url_path ck pub_id b1 = image_url_path ck pub_id b2.
Proof.
  intros Hcanon. rewrite !image_url_path_eq.
  apply urljoin_canonical;
    auto using image_name_plain, image_name_nonempty.
Qed.

Lemma base_normalisation_witness :
  canonical_base (Some "img") = canonical_base (Some "//img///") ∧
  image_url_path urllib.lenient "vox" (Some "img") =
  image_url_path urllib.lenient "vox" (Some "//img///").
Proof.
  assert (H : canonical_base (Some "img") = canonical_base (Some "//img///"))
    by reflexivity.
  split; [exact H|].
  exact (base_normalisation urllib.lenient "vox" (Some "img")
           (Some "//img///") H).
Defined.

(** * Further properties of the module *)

(** ** Strings *)

Lemma string_app_cons (c : ascii) (s t : string) :
  String c s +:+ t = String c (s +:+ t).
Proof. reflexivity. Qed.

Lemma string_app_assoc (s1 s2 s3 : string) :
  (s1 +:+ s2) +:+ s3 = s1 +:+ s2 +:+ s3.
Proof.
  induction s1 as [|c s1 IH]; [done|]. by rewrite !string_app_cons, IH.
Qed.

Lemma string_app_nil_r (s : string) : s +:+ "" = s.
Proof. induction s as [|c s IH]; [done|]. by rewrite string_app_cons, IH. Qed.

Lemma string_length_app (s1 s2 : string) :
  String.length (s1 +:+ s2) = (String.length s1 + String.length s2)%nat.
Proof.
  induction s1 as [|c s1 IH]; [done|].
  rewrite string_app_cons. simpl. by rewrite IH.
Qed.

Lemma string_app_inv_tail (s1 s2 t : string) :
  s1 +:+ t = s2 +:+ t → s1 = s2.
Proof.
  revert s2. induction s1 as [|c s1 IH]; intros [|d s2] Heq.
  - done.
  - apply (f_equal String.length) in Heq.
    rewrite !string_length_app in Heq. simpl in Heq. lia.
  - apply (f_equal String.length) in Heq.
    rewrite !string_length_app in Heq. simpl in Heq. lia.
  - rewrite !string_app_cons in Heq. injection Heq as -> Heq.
    f_equal. by apply IH.
Qed.

Lemma nonempty_app_r (s1 s2 : string) :
  str.nonempty s2 = true → str.nonempty (s1 +:+ s2) = true.
Proof. by destruct s1, s2. Qed.

Lemma split_not_nil (sep : ascii) (s : string) : str.split sep s ≠ [].
Proof.
  induction s as [|c s IH]; simpl; [done|].
  destruct (Ascii.eqb c sep); [done|]. by destruct (str.split sep s).
Qed.

Lemma join_cons_cons (sep a b : string) (l : list string) :
  str.join sep (a :: b :: l) = a +:+ sep +:+ str.join sep (b :: l).
Proof. reflexivity. Qed.

Lemma join_snoc (sep : string) (l : list string) (x : string) :
  str.join sep (l ++ [x]) =
  match l with
  | [] => x
  | _ => str.join sep l +:+ sep +:+ x
  end.
Proof.
  induction l as [|a l IH]; [done|].
  destruct l as [|b l]; [done|].
  rewrite <-!app_comm_cons, !join_cons_cons.
  rewrite app_comm_cons, IH. by rewrite !string_app_assoc.
Qed.

(** Splitting what was joined: segments without the separator come back. *)
Lemma split_app_absent (sep : ascii) (seg rest : string) :
  str.partition sep seg = None →
  str.split sep (seg +:+ rest) =
  match str.split sep rest with
  | piece :: pieces => (seg +:+ piece) :: pieces
  | [] => [seg]
  end.
Proof.
  induction seg as [|c seg IH].
  - intros _. change ("" +:+ rest) with rest.
    pose proof (split_not_nil sep rest).
    by destruct (str.split sep rest).
  - rewrite string_app_cons. simpl.
    destruct (Ascii.eqb c sep); [done|].
    destruct (str.partition sep seg) as [[? ?]|]; [done|]. intros _.
    rewrite IH by done. pose proof (split_not_nil sep rest).
    by destruct (str.split sep rest).
Qed.

Lemma split_join_closed (segs : list string) :
  segs ≠ [] →
  Forall (λ seg, str.partition "/" seg = None) segs →
  str.split "/" (str.join "/" segs +:+ "/") = segs ++ [""].
Proof.
  intros Hne Hall. induction Hall as [|a l Ha Hl IH]; [done|].
  destruct l as [|b l].
  - simpl str.join. rewrite split_app_absent by done. simpl.
    by rewrite string_app_nil_r.
  - rewrite join_cons_cons, !string_app_assoc, split_app_absent by done.
    change ("/" +:+ str.join "/" (b :: l) +:+ "/")
      with (String "/" (str.join "/" (b :: l) +:+ "/")).
    cbn [str.split]. rewrite Ascii.eqb_refl, IH by done.
    simpl. by rewrite string_app_nil_r.
Qed.

Lemma split_pieces_absent (sep : ascii) (s : string) :
  Forall (λ piece, str.partition sep piece = None) (str.split sep s).
Proof.
  induction s as [|c s IH]; simpl; [by repeat constructor|].
  destruct (Ascii.eqb c sep) eqn:Hc; [by constructor|].
  destruct (str.split sep s) as [|piece pieces].
  { constructor; [|constructor]. simpl. by rewrite Hc. }
  apply Forall_cons in IH as [Hp Hps]. constructor; [|done].
  simpl. by rewrite Hc, Hp.
Qed.

Lemma partition_app_None (c : ascii) (s1 s2 : string) :
  str.partition c s1 = None → str.partition c s2 = None →
  str.partition c (s1 +:+ s2) = None.
Proof.
  intros H1 H2. induction s1 as [|a s1 IH]; [done|].
  rewrite string_app_cons. simpl in *.
  destruct (Ascii.eqb a c); [done|].
  destruct (str.partition c s1) as [[? ?]|]; [done|]. by rewrite IH.
Qed.

Lemma partition_join_None (c : ascii) (segs : list string) :
  str.partition c "/" = None →
  Forall (λ seg, str.partition c seg = None) segs →
  str.partition c (str.join "/" segs) = None.
Proof.
  intros Hc. induction 1 as [|a l Ha Hl IH]; [done|].
  destruct l as [|b l]; [done|].
  rewrite join_cons_cons. by repeat apply partition_app_None.
Qed.

(** ** Joining a file name to a base *)

Lemma resolve_snoc (l : list string) (name : string) :
  name ≠ "." → name ≠ ".." →
  urllib.resolve (l ++ [name]) = urllib.resolve l ++ [name].
Proof.
  intros H1 H2. unfold urllib.resolve. rewrite foldl_app. simpl.
  apply String.eqb_neq in H1, H2. by rewrite H1, H2.
Qed.

Lemma drop_empty_inner_snoc (l : list string) (name : string) :
  urllib.drop_empty_inner (l ++ [name]) =
  match l with
  | [] => []
  | first :: others =>
      first :: filter (λ seg, str.nonempty seg = true) others
  end ++ [name].
Proof.
  destruct l as [|first others]; [done|].
  rewrite <-app_comm_cons. unfold urllib.drop_empty_inner.
  by rewrite reverse_snoc, reverse_involutive.
Qed.

(** *** Bases without scheme and network location *)

Lemma sanitary_cons (c : ascii) (s : string) :
  sanitary (String c s) ↔ urllib.unsafe_byte c = false ∧ sanitary s.
Proof.
  unfold sanitary. cbn [urllib.every].
  rewrite andb_true_iff, negb_true_iff. done.
Qed.

Lemma sanitary_app (s t : string) :
  sanitary (s +:+ t) ↔ sanitary s ∧ sanitary t.
Proof.
  induction s as [|c s IH].
  - change ("" +:+ t) with t. split; [by split|by intros [_ ?]].
  - rewrite string_app_cons, !sanitary_cons, IH. tauto.
Qed.

Lemma sanitary_split (s : string) :
  sanitary s → Forall sanitary (str.split "/" s).
Proof.
  induction s as [|c s IH]; [by repeat constructor|].
  intros [Hc Hs]%sanitary_cons. specialize (IH Hs). cbn [str.split].
  destruct (Ascii.eqb c "/"); [by constructor|].
  destruct (str.split "/" s) as [|piece pieces].
  { constructor; [|constructor]. by apply sanitary_cons. }
  apply Forall_cons in IH as [Hp Hps]. constructor; [|done].
  by apply sanitary_cons.
Qed.

Lemma sanitary_join (segs : list string) :
  Forall sanitary segs → sanitary (str.join "/" segs).
Proof.
  induction 1 as [|a l Ha Hl IH]; [done|].
  destruct l as [|b l]; [done|].
  rewrite join_cons_cons. apply sanitary_app. split; [done|].
  apply sanitary_app. split; [reflexivity|]. apply IH.
Qed.

Lemma remove_unsafe_sanitary (s : string) :
  sanitary s → urllib.remove_unsafe s = s.
Proof.
  induction s as [|c s IH]; [done|].
  intros [Hc Hs]%sanitary_cons. cbn [urllib.remove_unsafe].
  by rewrite Hc, IH.
Qed.

Lemma listed_empty :
  urllib.listed "" urllib.uses_relative = true ∧
  urllib.listed "" urllib.uses_netloc = true ∧
  urllib.listed "" urllib.uses_params = true.
Proof. by vm_compute. Qed.

(** A sanitary base that starts with one slash, not two, has neither scheme
    nor network location, and its path is [base_path]. *)
Lemma urlparse_path (ck : urllib.Checks) (base : string) :
  sanitary base →
  String.prefix "/" base = true → String.prefix "//" base = false →
  ∃ params query fragment,
    urllib.urlparse ck base EmptyString =
      Ok (urllib.mkParseResult EmptyString EmptyString (base_path base)
            params query fragment).
Proof.
  intros Hsan Hslash Hslashes.
  destruct base as [|c rest]; [done|].
  assert (c = "/"%char) as ->.
  { cbn [String.prefix] in Hslash.
    by destruct (Ascii.ascii_dec "/" c) as [<-|]. }
  unfold urllib.urlparse, urllib.urlsplit, base_path.
  change (urllib.lstrip (String "/" rest)) with (String "/" rest).
  change (urllib.strip "") with "".
  rewrite remove_unsafe_sanitary by done.
  change (urllib.remove_unsafe "") with "".
  assert (Hscheme :
    match str.partition ":" (String "/" rest) with
    | Some (String c _ as head, rest') =>
        if urllib.is_alpha c && urllib.every urllib.scheme_char head
        then (str.lower head, rest') else ("", String "/" rest)
    | _ => ("", String "/" rest)
    end = ("", String "/" rest)).
  { cbn [str.partition].
    change (Ascii.eqb "/" ":") with false. cbn match.
    by destruct (str.partition ":" rest) as [[? ?]|]. }
  rewrite Hscheme, Hslashes. cbn [mbind result_bind].
  destruct (default (String "/" rest, "") (str.partition "#" (String "/" rest)))
    as [url fragment].
  destruct (default (url, "") (str.partition "?" url)) as [url' query].
  change (urllib.checknetloc ck "") with (Ok () : result ()).
  cbn [mbind result_bind urllib.s_path urllib.s_scheme urllib.s_netloc
       urllib.s_query urllib.s_fragment].
  destruct listed_empty as (_ & _ & ->). cbn [andb].
  destruct (urllib.contains ";" url').
  - destruct (urllib.splitparams url') as [path params]. by eexists _, _, _.
  - by eexists _, _, _.
Qed.

(** A plain file name that is no dot segment lands in the directory of the
    base. *)
Lemma urljoin_file (ck : urllib.Checks) (base name : string) :
  sanitary base →
  String.prefix "/" base = true → String.prefix "//" base = false →
  plain name = true → name ≠ "" → name ≠ "." → name ≠ ".." →
  urllib.urljoin ck base name = Ok (url_dir base +:+ name).
Proof.
  intros Hsan Hslash Hslashes Hplain Hname Hdot Hdots.
  assert (Hb : str.nonempty base = true) by (by destruct base).
  assert (Hn : str.nonempty name = true) by (by destruct name).
  destruct (urlparse_path ck base) as (params & query & fragment & Hparse);
    [done..|].
  unfold urllib.urljoin, url_dir.
  rewrite Hb, Hn, Hparse. cbn [negb mbind result_bind urllib.p_scheme].
  rewrite (urlparse_plain ck name) by done.
  cbn [mbind result_bind urllib.p_scheme urllib.p_netloc urllib.p_path
       urllib.p_params urllib.p_query urllib.p_fragment].
  destruct listed_empty as (-> & -> & _).
  change (String.eqb "" "") with true. cbn [negb orb andb str.nonempty].
  rewrite Hn. cbn [negb andb].
  rewrite (prefix_slash_plain name), (split_plain name) by done.
  set (parts := if str.nonempty (List.last _ _) then _ else _).
  rewrite drop_empty_inner_snoc.
  set (kept := match parts with [] => [] | _ => _ end).
  rewrite resolve_snoc, List.last_last by done.
  apply String.eqb_neq in Hdot, Hdots. rewrite Hdot, Hdots. cbn [orb].
  rewrite join_snoc. unfold urllib.urlunparse, urllib.urlunsplit.
  cbn [str.nonempty urllib.p_path urllib.p_params urllib.p_query
       urllib.p_fragment urllib.p_scheme urllib.p_netloc
       urllib.s_path urllib.s_scheme urllib.s_netloc urllib.s_query
       urllib.s_fragment orb andb].
  destruct (urllib.resolve kept) as [|dir dirs].
  - by rewrite Hn.
  - by rewrite string_app_assoc, !nonempty_app_r.
Qed.
(** ** The shape of the image path *)

Lemma hex_length (bytes : list Z) :
  String.length (hashlib.hex bytes) = (2 * length bytes)%nat.
Proof. induction bytes as [|b bytes IH]; simpl; [done|]. rewrite IH. lia. Qed.

Lemma md5_length (msg : list Z) : length (hashlib.md5 msg) = 16%nat.
Proof.
  unfold hashlib.md5. by destruct (foldl _ _ _) as [[[a b] c] d].
Qed.

Lemma hex_digit_hex_char (x : Z) : 0 ≤ x < 16 → hex_char (hashlib.hex_digit x).
Proof.
  intros Hx.
  assert (Hcases : x = 0 ∨ x = 1 ∨ x = 2 ∨ x = 3 ∨ x = 4 ∨ x = 5 ∨ x = 6 ∨
                   x = 7 ∨ x = 8 ∨ x = 9 ∨ x = 10 ∨ x = 11 ∨ x = 12 ∨
                   x = 13 ∨ x = 14 ∨ x = 15) by lia.
  repeat (destruct Hcases as [->|Hcases];
          [apply (bool_decide_unpack _); by vm_compute|]).
  subst. apply (bool_decide_unpack _). by vm_compute.
Qed.

Lemma hex_hex_chars (bytes : list Z) :
  Forall (λ b, 0 ≤ b < 256) bytes →
  Forall hex_char (list_ascii_of_string (hashlib.hex bytes)).
Proof.
  induction 1 as [|b bytes Hb _ IH]; simpl; [constructor|].
  apply Forall_cons_2; [|apply Forall_cons_2; [|done]].
  - apply hex_digit_hex_char.
    rewrite Z.shiftr_div_pow2 by lia. change (2 ^ 4) with 16.
    split; [apply Z.div_pos; lia|apply Z.div_lt_upper_bound; lia].
  - apply hex_digit_hex_char.
    change 0xf with (Z.ones 4). rewrite Z.land_ones by lia.
    apply Z.mod_pos_bound. lia.
Qed.

Lemma image_name_length (pub_id : string) :
  String.length (image_name pub_id) = 36%nat.
Proof.
  unfold image_name, hashlib.md5_hexdigest.
  by rewrite string_length_app, hex_length, md5_length.
Qed.

Lemma image_name_no_dots (pub_id : string) :
  image_name pub_id ≠ "." ∧ image_name pub_id ≠ "..".
Proof.
  pose proof (image_name_length pub_id) as Hlen.
  split; intros Heq; by rewrite Heq in Hlen.
Qed.

Lemma joined_base_nonempty (path : option string) : joined_base path ≠ "".
Proof.
  unfold joined_base.
  destruct path as [[|c s]|]; [done| |done].
  cbn [str.nonempty]. by destruct (negb _).
Qed.

Lemma filter_all {A} (P : A → Prop) `{!∀ x, Decision (P x)} (l : list A) :
  Forall P l → filter P l = l.
Proof.
  induction 1 as [|x l Hx _ IH]; [done|].
  by rewrite filter_cons_True, IH.
Qed.

Lemma resolve_clean (l : list string) :
  Forall (λ seg, seg ≠ "." ∧ seg ≠ "..") l → urllib.resolve l = l.
Proof.
  intros Hall. unfold urllib.resolve.
  enough (∀ acc, foldl (λ resolved seg,
             if String.eqb seg ".." then removelast resolved
             else if String.eqb seg "." then resolved
             else resolved ++ [seg]) acc l = acc ++ l) as H by apply (H []).
  induction Hall as [|seg l [H1 H2] _ IH]; intros acc; simpl.
  - by rewrite app_nil_r.
  - apply String.eqb_neq in H1, H2. rewrite H1, H2, IH.
    by rewrite <-app_assoc.
Qed.

Lemma split_wrapped (segs : list string) :
  segs ≠ [] →
  Forall (λ seg, str.partition "/" seg = None) segs →
  str.split "/" ("/" +:+ str.join "/" segs +:+ "/") = "" :: segs ++ [""].
Proof.
  intros Hne Hall.
  change ("/" +:+ str.join "/" segs +:+ "/")
    with (String "/" (str.join "/" segs +:+ "/")).
  cbn [str.split]. by rewrite Ascii.eqb_refl, split_join_closed.
Qed.

(** The segments [image_url_path] keeps of a base path. *)
Lemma kept_segments (b : string) :
  let segs := filter (λ p, str.nonempty p = true) (str.split "/" b) in
  Forall (λ seg, str.nonempty seg = true) segs ∧
  Forall (λ seg, str.partition "/" seg = None) segs.
Proof.
  split; apply Forall_forall; intros seg [Hseg Hin]%list_elem_of_filter;
    [done|].
  pose proof (split_pieces_absent "/" b) as Hall.
  rewrite Forall_forall in Hall. by apply Hall.
Qed.

Lemma joined_base_segments (b : string) :
  b ≠ "" → b ≠ "/" →
  joined_base (Some b) =
  "/" +:+ str.join "/" (filter (λ p, str.nonempty p = true) (str.split "/" b))
      +:+ "/".
Proof.
  intros Hb Hroot. destruct b as [|c s]; [done|].
  apply String.eqb_neq in Hroot.
  change (joined_base (Some (String c s))) with
    (if negb (String.eqb (String c s) "/") then
       "/" +:+ str.join "/"
                 (filter (λ p, str.nonempty p = true)
                    (str.split "/" (String c s)))
           +:+ "/"
     else String c s).
  by rewrite Hroot.
Qed.

Lemma wrapped_prefix (segs : list string) :
  segs ≠ [] →
  Forall (λ seg, str.nonempty seg = true) segs →
  Forall (λ seg, str.partition "/" seg = None) segs →
  String.prefix "/" ("/" +:+ str.join "/" segs +:+ "/") = true ∧
  String.prefix "//" ("/" +:+ str.join "/" segs +:+ "/") = false.
Proof.
  intros Hne Hfull Hslash. destruct segs as [|seg segs]; [done|].
  apply Forall_cons in Hfull as [Hseg _].
  apply Forall_cons in Hslash as [Hsl _].
  destruct seg as [|c seg]; [done|].
  assert (Hc : c ≠ "/"%char).
  { intros ->. cbn [str.partition] in Hsl.
    by rewrite Ascii.eqb_refl in Hsl. }
  assert (Hshape : ∃ rest,
    "/" +:+ str.join "/" (String c seg :: segs) +:+ "/" =
    String "/" (String c rest)).
  { destruct segs as [|seg' segs].
    - exists (seg +:+ "/"). reflexivity.
    - exists (seg +:+ "/" +:+ str.join "/" (seg' :: segs) +:+ "/").
      rewrite join_cons_cons, !string_app_assoc. reflexivity. }
  destruct Hshape as [rest ->]. cbn [String.prefix].
  destruct (Ascii.ascii_dec "/" "/") as [_|]; [|done].
  split; [done|]. by destruct (Ascii.ascii_dec "/" c) as [<-|].
Qed.

Lemma sanitary_joined_base (path : option string) :
  sanitary_base path → sanitary (joined_base path).
Proof.
  destruct path as [b|]; [|done]. intros Hsan.
  destruct (decide (b = "")) as [->|Hb]; [done|].
  destruct (decide (b = "/")) as [->|Hs]; [done|].
  rewrite joined_base_segments by done.
  apply sanitary_app. split; [reflexivity|].
  apply sanitary_app. split; [|reflexivity].
  apply sanitary_join. apply Forall_forall.
  intros seg [_ Hin]%list_elem_of_filter.
  pose proof (sanitary_split b Hsan) as Hall.
  rewrite Forall_forall in Hall. by apply Hall.
Qed.

Lemma urljoin_slash (ck : urllib.Checks) (name : string) :
  plain name = true → name ≠ "" → name ≠ "." → name ≠ ".." →
  urllib.urljoin ck "/" name = Ok ("/" +:+ name).
Proof.
  intros Hplain Hname Hdot Hdots.
  by apply (urljoin_file ck "/" name).
Qed.

(** For a sanitary base the file name lands in the directory of the
    normalised base. *)
Lemma image_url_path_dir (ck : urllib.Checks) (pub_id : string)
    (path : option string) :
  sanitary_base path →
  image_url_path ck pub_id path =
  Ok (url_dir (joined_base path) +:+ image_name pub_id).
Proof.
  intros Hsan. rewrite image_url_path_eq.
  destruct (image_name_no_dots pub_id) as [Hdot Hdots].
  pose proof (image_name_plain pub_id) as Hplain.
  pose proof (image_name_nonempty pub_id) as Hname.
  pose proof (sanitary_joined_base path Hsan) as Hjoined.
  revert Hdot Hdots Hplain Hname.
  generalize (image_name pub_id) as name. intros name Hdot Hdots Hplain Hname.
  assert (Hroot : urllib.urljoin ck "/" name = Ok (url_dir "/" +:+ name)).
  { by apply urljoin_file. }
  destruct path as [b|]; [|exact Hroot].
  destruct (decide (b = "")) as [->|Hb]; [exact Hroot|].
  destruct (decide (b = "/")) as [->|Hs]; [exact Hroot|].
  rewrite joined_base_segments in * by done.
  destruct (kept_segments b) as [Hfull Hslash].
  set (segs := filter _ (str.split "/" b)) in *.
  destruct (decide (segs = [])) as [->|Hne].
  - change ("/" +:+ str.join "/" [] +:+ "/") with "//".
    rewrite <-urljoin_root by done. exact Hroot.
  - destruct (wrapped_prefix segs) as [Hp Hpp]; [done..|].
    by apply urljoin_file.
Qed.

(** X1: for a base path without tab, carriage return and line feed, the
    image path is a directory that depends on the base alone, followed by
    the 32 lowercase hexadecimal digits of the MD5 digest of the publication
    id and ".png". *)
Theorem image_url_path_shape (ck : urllib.Checks) (pub_id : string)
    (path : option string) :
  sanitary_base path →
  let digest := hashlib.md5_hexdigest (hashlib.encode pub_id) in
  image_url_path ck pub_id path =
    Ok (url_dir (joined_base path) +:+ digest +:+ ".png") ∧
  String.length digest = 32%nat ∧
  Forall hex_char (list_ascii_of_string digest).
Proof.
  intros Hsan digest. split; [by apply image_url_path_dir|]. split.
  - unfold digest, hashlib.md5_hexdigest. by rewrite hex_length, md5_length.
  - apply hex_hex_chars, md5_range.
Qed.

Lemma image_url_path_shape_witness :
  sanitary_base (Some "static//img") ∧
  image_url_path urllib.lenient "vox" (Some "static//img") =
    Ok (url_dir (joined_base (Some "static//img")) +:+
        hashlib.md5_hexdigest (hashlib.encode "vox") +:+ ".png").
Proof.
  assert (Hsan : sanitary_base (Some "static//img")) by reflexivity.
  exact (conj Hsan
    (proj1 (image_url_path_shape urllib.lenient "vox" (Some "static//img")
              Hsan))).
Defined.

(** X2: under one base path without tab, carriage return and line feed,
    two publication ids get the same image path exactly when their MD5
    digests coincide. *)
Theorem image_url_path_collision (ck : urllib.Checks) (p1 p2 : string)
    (path : option string) :
  sanitary_base path →
  image_url_path ck p1 path = image_url_path ck p2 path ↔
  hashlib.md5_hexdigest (hashlib.encode p1) =
  hashlib.md5_hexdigest (hashlib.encode p2).
Proof.
  intros Hsan. rewrite !image_url_path_dir by done. unfold image_name. split.
  - intros [= Heq]. apply (inj (String.append _)) in Heq.
    by apply string_app_inv_tail in Heq.
  - by intros ->.
Qed.

Lemma image_url_path_collision_witness :
  sanitary_base (Some "img") ∧
  image_url_path urllib.lenient "vox" (Some "img") ≠
  image_url_path urllib.lenient "cnn" (Some "img").
Proof.
  assert (Hsan : sanitary_base (Some "img")) by reflexivity.
  split; [exact Hsan|]. intros Heq.
  apply (proj1 (image_url_path_collision urllib.lenient "vox" "cnn"
                  (Some "img") Hsan)) in Heq.
  vm_compute in Heq. discriminate.
Defined.

(** ** The directory of a normalised base *)

Lemma base_path_wrapped (segs : list string) :
  segs ≠ [] →
  Forall (λ seg, str.partition "/" seg = None) segs →
  Forall (λ seg, str.partition "#" seg = None) segs →
  Forall (λ seg, str.partition "?" seg = None) segs →
  base_path ("/" +:+ str.join "/" segs +:+ "/") =
  "/" +:+ str.join "/" segs +:+ "/".
Proof.
  intros Hne Hslash Hhash Hquery. unfold base_path.
  assert (Habsent : ∀ c, str.partition c "/" = None →
    Forall (λ seg, str.partition c seg = None) segs →
    str.partition c ("/" +:+ str.join "/" segs +:+ "/") = None).
  { intros c Hc Hsegs. repeat apply partition_app_None; try done.
    by apply partition_join_None. }
  rewrite (Habsent "#"%char) by done. cbn [default from_option id].
  rewrite (Habsent "?"%char) by done. cbn [default from_option id].
  destruct (urllib.contains ";" _); [|done].
  unfold urllib.splitparams. rewrite split_wrapped by done.
  rewrite app_comm_cons, reverse_snoc. by cbn [str.partition fst].
Qed.

Lemma url_dir_wrapped (segs : list string) :
  segs ≠ [] →
  Forall (λ seg, str.nonempty seg = true) segs →
  Forall (λ seg, str.partition "/" seg = None) segs →
  Forall clean_segment segs →
  url_dir ("/" +:+ str.join "/" segs +:+ "/") =
  "/" +:+ str.join "/" segs +:+ "/".
Proof.
  intros Hne Hfull Hslash Hclean. unfold url_dir.
  rewrite base_path_wrapped, split_wrapped; try done.
  - rewrite app_comm_cons, List.last_last. cbn [str.nonempty].
    rewrite <-app_comm_cons, filter_app, (filter_all _ segs) by done.
    rewrite filter_cons_False, filter_nil, app_nil_r by done.
    rewrite resolve_clean.
    + destruct segs as [|seg segs]; [done|].
      by rewrite join_cons_cons, !string_app_assoc.
    + constructor; [done|]. eapply Forall_impl; [exact Hclean|].
      by intros seg (? & ? & _).
  - eapply Forall_impl; [exact Hclean|]. by intros seg (_ & _ & ? & _).
  - eapply Forall_impl; [exact Hclean|]. by intros seg (_ & _ & _ & ?).
Qed.

(** X3: for a base path without tab, carriage return and line feed whose
    non-empty segments contain no dot segment, no "#" and no "?", the image
    path is those segments, each behind one slash, then a slash and the file
    name. *)
Theorem image_url_path_clean (ck : urllib.Checks) (pub_id b : string) :
  let segs := filter (λ p, str.nonempty p = true) (str.split "/" b) in
  sanitary b →
  segs ≠ [] →
  Forall clean_segment segs →
  image_url_path ck pub_id (Some b) =
  Ok ("/" +:+ str.join "/" segs +:+ "/" +:+ image_name pub_id).
Proof.
  intros segs Hsan Hne Hclean. destruct (kept_segments b) as [Hfull Hslash].
  rewrite image_url_path_dir by done. generalize (image_name pub_id) as name.
  intros name. rewrite joined_base_segments.
  - fold segs. rewrite url_dir_wrapped by done.
    by rewrite !string_app_assoc.
  - intros ->. by apply Hne.
  - intros ->. by apply Hne.
Qed.

Lemma image_url_path_clean_witness :
  let segs :=
    filter (λ p, str.nonempty p = true) (str.split "/" "//static/img/") in
  sanitary "//static/img/" ∧ segs ≠ [] ∧ Forall clean_segment segs ∧
  image_url_path urllib.lenient "vox" (Some "//static/img/") =
  Ok ("/" +:+ str.join "/" segs +:+ "/" +:+ image_name "vox").
Proof.
  intros segs.
  assert (Hsan : sanitary "//static/img/") by reflexivity.
  assert (Hsegs : segs = ["static"; "img"]) by reflexivity.
  assert (Hne : segs ≠ []) by (by rewrite Hsegs).
  assert (Hclean : Forall clean_segment segs).
  { rewrite Hsegs. repeat (apply Forall_cons_2; [by repeat split|]).
    constructor. }
  exact (conj Hsan (conj Hne (conj Hclean
           (image_url_path_clean urllib.lenient "vox" "//static/img/"
              Hsan Hne Hclean)))).
Defined.

(** X4: a base path that is absent, empty or made of slashes only puts the
    image directly under the root. *)
Theorem image_url_path_root (ck : urllib.Checks) (pub_id : string)
    (path : option string) :
  (∀ b, path = Some b →
        filter (λ p, str.nonempty p = true) (str.split "/" b) = []) →
  image_url_path ck pub_id path = Ok ("/" +:+ image_name pub_id).
Proof.
  intros Hroot. rewrite image_url_path_eq.
  destruct (image_name_no_dots pub_id) as [Hdot Hdots].
  pose proof (image_name_plain pub_id) as Hplain.
  pose proof (image_name_nonempty pub_id) as Hname.
  revert Hdot Hdots Hplain Hname.
  generalize (image_name pub_id) as name. intros name Hdot Hdots Hplain Hname.
  pose proof (urljoin_slash ck name Hplain Hname Hdot Hdots) as Hslash.
  destruct path as [b|]; [|exact Hslash]. specialize (Hroot b eq_refl).
  destruct (decide (b = "")) as [->|Hb]; [exact Hslash|].
  destruct (decide (b = "/")) as [->|Hs]; [exact Hslash|].
  rewrite joined_base_segments, Hroot by done.
  change ("/" +:+ str.join "/" [] +:+ "/") with "//".
  by rewrite <-urljoin_root.
Qed.

Lemma image_url_path_root_witness :
  (∀ b, Some "///" = Some b →
        filter (λ p, str.nonempty p = true) (str.split "/" b) = []) ∧
  image_url_path urllib.lenient "vox" (Some "///") =
    Ok ("/" +:+ image_name "vox").
Proof.
  assert (H : ∀ b, Some "///" = Some b →
            filter (λ p, str.nonempty p = true) (str.split "/" b) = []).
  { intros b Hb. injection Hb as <-. reflexivity. }
  exact (conj H (image_url_path_root urllib.lenient "vox" (Some "///") H)).
Defined.

(** X5: normalising a base path twice is normalising it once, so handing
    [image_url_path] an already normalised base changes nothing. *)
Theorem image_url_path_idempotent (ck : urllib.Checks) (pub_id : string)
    (path : option string) :
  joined_base (Some (joined_base path)) = joined_base path ∧
  image_url_path ck pub_id (Some (joined_base path)) =
  image_url_path ck pub_id path.
Proof.
  assert (Hidem : joined_base (Some (joined_base path)) = joined_base path).
  { destruct path as [b|]; [|reflexivity].
    destruct (decide (b = "")) as [->|Hb]; [reflexivity|].
    destruct (decide (b = "/")) as [->|Hs]; [reflexivity|].
    rewrite (joined_base_segments b) by done.
    destruct (kept_segments b) as [Hfull Hslash].
    set (segs := filter _ (str.split "/" b)) in *.
    destruct (decide (segs = [])) as [->|Hne]; [reflexivity|].
    rewrite joined_base_segments.
    - rewrite split_wrapped by done.
      rewrite filter_cons_False, filter_app, (filter_all _ segs) by done.
      by rewrite filter_cons_False, filter_nil, app_nil_r.
    - done.
    - destruct segs as [|[|c seg] segs]; [done| |].
      + by apply Forall_cons in Hfull as [? _].
      + by destruct segs. }
  split; [exact Hidem|]. by rewrite !image_url_path_eq, Hidem.
Qed.

(** ** More on [DataStorage.word_counts] *)

Lemma StronglySorted_sublist {A} (R : relation A) (l1 l2 : list A) :
  l1 `sublist_of` l2 → StronglySorted R l2 → StronglySorted R l1.
Proof.
  induction 1 as [|x l1 l2 Hsub IH|x l1 l2 Hsub IH]; intros Hs.
  - constructor.
  - apply StronglySorted_cons in Hs as [Hx Hs].
    apply StronglySorted_cons. split; [|by apply IH].
    rewrite Forall_forall in Hx |- *. intros y Hy. apply Hx.
    by eapply elem_of_sublist.
  - apply StronglySorted_cons in Hs as [_ Hs]. by apply IH.
Qed.

Lemma remaining_sublist (cursor : option firestore.Doc)
    (l : list firestore.Doc) :
  remaining cursor l `sublist_of` l.
Proof. destruct cursor; [apply sublist_filter|done]. Qed.

Lemma order_le_in_query_order (a b : firestore.Doc) :
  firestore.order_le ent_orders a b →
  in_query_order (record_of a) (record_of b).
Proof.
  unfold firestore.order_le, in_query_order. rewrite cmp_unfold. simpl.
  destruct (Z.compare_spec (firestore.doc_count a) (firestore.doc_count b));
    simpl; intros Hle.
  - right. split; [done|]. by destruct (String.compare _ _).
  - done.
  - left. lia.
Qed.

Lemma word_counts_inv (db : firestore.Client) (publ : string) (n : Z)
    (checkpoint : option Checkpoint) (l : list WordCount) :
  DataStorage.word_counts db publ n checkpoint = Ok l →
  0 ≤ n ∧
  l = record_of <$> take (Z.to_nat n)
        (remaining (DataStorage.cursor_of checkpoint) (ordered_docs db publ)).
Proof.
  intros Hl. destruct (decide (n < 0)) as [Hneg|Hpos].
  - by rewrite word_counts_negative in Hl.
  - rewrite word_counts_eq in Hl by lia. injection Hl as <-. split; [lia|done].
Qed.

Lemma word_counts_sorted (db : firestore.Client) (publ : string) (n : Z)
    (checkpoint : option Checkpoint) (l : list WordCount) :
  DataStorage.word_counts db publ n checkpoint = Ok l →
  StronglySorted in_query_order l.
Proof.
  intros [_ ->]%word_counts_inv.
  apply (StronglySorted_fmap _ (firestore.order_le ent_orders));
    [apply order_le_in_query_order|].
  eapply StronglySorted_sublist; [|apply (StronglySorted_merge_sort _)].
  etrans; [apply sublist_take|apply remaining_sublist].
Qed.

Lemma word_counts_stored (db : firestore.Client) (publ : string) (n : Z)
    (checkpoint : option Checkpoint) (l : list WordCount) :
  DataStorage.word_counts db publ n checkpoint = Ok l →
  l ⊆+ stored_records db publ.
Proof.
  intros [_ ->]%word_counts_inv. unfold stored_records.
  apply fmap_submseteq. etrans; [apply submseteq_take|].
  etrans; [apply sublist_submseteq, remaining_sublist|].
  apply Permutation_submseteq, ordered_docs_perm.
Qed.

(** X6: whatever the store, the limit and the checkpoint, the records
    [word_counts] returns are in the order count descending, word
    ascending, and each of them is a stored record, returned no more often
    than it is stored. *)
Theorem word_counts_ordered (db : firestore.Client) (publ : string) (n : Z)
    (checkpoint : option Checkpoint) (l : list WordCount) :
  DataStorage.word_counts db publ n checkpoint = Ok l →
  StronglySorted in_query_order l ∧ l ⊆+ stored_records db publ.
Proof.
  intros Hl. split; [by eapply word_counts_sorted|by eapply word_counts_stored].
Qed.

Lemma word_counts_ordered_witness :
  DataStorage.word_counts vox_db "vox" 2 (Some (Some "apple", Some 30)) =
    Ok [mkWordCount "banana" 20; mkWordCount "cherry" 10] ∧
  StronglySorted in_query_order
    [mkWordCount "banana" 20; mkWordCount "cherry" 10].
Proof.
  assert (H : DataStorage.word_counts vox_db "vox" 2
                (Some (Some "apple", Some 30)) =
              Ok [mkWordCount "banana" 20; mkWordCount "cherry" 10])
    by reflexivity.
  exact (conj H (proj1 (word_counts_ordered vox_db "vox" 2 _ _ H))).
Defined.

(** X7: asking for fewer records returns a prefix of what asking for more
    returns, under the same checkpoint. *)
Theorem word_counts_prefix (db : firestore.Client) (publ : string) (n m : Z)
    (checkpoint : option Checkpoint) :
  0 ≤ n ≤ m →
  ∃ l, DataStorage.word_counts db publ m checkpoint = Ok l ∧
       DataStorage.word_counts db publ n checkpoint =
       Ok (take (Z.to_nat n) l).
Proof.
  intros Hnm. eexists. split; [apply word_counts_eq; lia|].
  rewrite word_counts_eq by lia. f_equal.
  rewrite <-fmap_take, take_take. do 2 f_equal. lia.
Qed.

Lemma word_counts_prefix_witness :
  0 ≤ 1 ≤ 3 ∧
  ∃ l, DataStorage.word_counts vox_db "vox" 3 None = Ok l ∧
       DataStorage.word_counts vox_db "vox" 1 None = Ok (take (Z.to_nat 1) l).
Proof.
  assert (H : 0 ≤ 1 ≤ 3) by lia.
  exact (conj H (word_counts_prefix vox_db "vox" 1 3 None H)).
Defined.

(** X8: a resumed call whose limit is at least the size of the collection
    returns all and only the stored records that strictly follow the
    checkpoint key. *)
Theorem resumption_complete (db : firestore.Client) (publ : string) (n : Z)
    (w : string) (c : Z) :
  w ≠ "" →
  Z.of_nat (length (docs_of db publ)) ≤ n →
  ∃ l, DataStorage.word_counts db publ n (Some (Some w, Some c)) = Ok l ∧
       ∀ r, r ∈ l ↔ r ∈ stored_records db publ ∧ follows c w r.
Proof.
  intros Hw Hn. eexists. split; [apply word_counts_eq; lia|].
  rewrite cursor_of_full by done. intros r.
  rewrite take_ge.
  - unfold remaining, stored_records. rewrite !list_elem_of_fmap. split.
    + intros (d & -> & [Hd Hin]%list_elem_of_filter). split.
      * exists d. split; [done|]. by rewrite <-ordered_docs_perm.
      * apply cmp_lt_iff in Hd. exact Hd.
    + intros [(d & -> & Hin) Hf]. exists d. split; [done|].
      apply list_elem_of_filter. split.
      * apply cmp_lt_iff. exact Hf.
      * by rewrite ordered_docs_perm.
  - etrans; [apply length_filter|].
    rewrite (Permutation_length (ordered_docs_perm db publ)). lia.
Qed.

Lemma resumption_complete_witness :
  "apple" ≠ "" ∧ Z.of_nat (length (docs_of vox_db "vox")) ≤ 3 ∧
  ∃ l, DataStorage.word_counts vox_db "vox" 3 (Some (Some "apple", Some 30)) = Ok l ∧
       ∀ r, r ∈ l ↔ r ∈ stored_records vox_db "vox" ∧ follows 30 "apple" r.
Proof.
  assert (Hw : "apple" ≠ "") by discriminate.
  assert (Hn : Z.of_nat (length (docs_of vox_db "vox")) ≤ 3).
  { change (docs_of vox_db "vox") with
      [firestore.mkDoc "apple" 30; firestore.mkDoc "banana" 20;
       firestore.mkDoc "cherry" 10]. simpl. lia. }
  exact (conj Hw (conj Hn (resumption_complete vox_db "vox" 3 "apple" 30 Hw Hn))).
Defined.

(** Seeking after a cursor leaves a suffix of a strictly increasing
    list. *)
Lemma remaining_suffix (cursor : option firestore.Doc)
    (l : list firestore.Doc) :
  StronglySorted (λ a b, firestore.order_compare ent_orders a b = Lt) l →
  ∃ before, l = before ++ remaining cursor l.
Proof.
  destruct cursor as [c|]; [|by exists []]. simpl.
  induction 1 as [|a l Hs IH Ha].
  - by exists [].
  - destruct (decide (firestore.order_compare ent_orders c a = Lt)) as [Hc|Hc].
    + exists []. simpl. symmetry. apply filter_all.
      constructor; [done|]. eapply Forall_impl; [exact Ha|].
      intros x Hx. by apply (cmp_lt_trans c a x).
    + destruct IH as [before IH]. exists (a :: before).
      rewrite filter_cons_False by done. simpl. by f_equal.
Qed.

(** X9: in a store without ties and without empty words, a page of n1
    records followed by a page of n2 records resumed at the last record of
    the first is the single page of n1 + n2 records. *)
Theorem pages_compose (db : firestore.Client) (publ : string) (n1 n2 : Z)
    (checkpoint : option Checkpoint) (page1 page2 : list WordCount)
    (r : WordCount) :
  NoDup (docs_of db publ) →
  Forall (λ d, firestore.doc_word d ≠ "") (docs_of db publ) →
  DataStorage.word_counts db publ n1 checkpoint = Ok page1 →
  last page1 = Some r →
  DataStorage.word_counts db publ n2 (Some (checkpoint_of r)) = Ok page2 →
  DataStorage.word_counts db publ (n1 + n2) checkpoint = Ok (page1 ++ page2).
Proof.
  intros Hnd Hwords [Hn1 ->]%word_counts_inv Hlast [Hn2 ->]%word_counts_inv.
  pose proof (ordered_docs_strict db publ Hnd) as Hstrict.
  destruct (remaining_suffix (DataStorage.cursor_of checkpoint) _ Hstrict)
    as [before Hsplit].
  set (rest := remaining (DataStorage.cursor_of checkpoint)
                 (ordered_docs db publ)) in *.
  rewrite fmap_last in Hlast.
  destruct (last (take (Z.to_nat n1) rest)) as [y|] eqn:Hy; [|done].
  injection Hlast as <-. apply last_Some in Hy as [page Hpage].
  assert (Hrest : rest = page ++ y :: drop (Z.to_nat n1) rest).
  { rewrite <-(take_drop (Z.to_nat n1) rest) at 1.
    by rewrite Hpage, <-app_assoc. }
  assert (Hword : firestore.doc_word y ≠ "").
  { rewrite Forall_forall in Hwords. apply Hwords.
    rewrite <-ordered_docs_perm, Hsplit, Hrest.
    rewrite !elem_of_app. right. right. by left. }
  assert (Hseek : remaining (Some y) (ordered_docs db publ) =
                  drop (Z.to_nat n1) rest).
  { remember (drop (Z.to_nat n1) rest) as behind.
    rewrite Hsplit, Hrest, app_assoc in Hstrict |- *.
    by apply seek_after. }
  rewrite word_counts_eq by lia. f_equal.
  rewrite cursor_of_record, Hseek by done. fold rest.
  rewrite <-fmap_app, take_take_drop. do 2 f_equal. lia.
Qed.

Lemma pages_compose_witness :
  DataStorage.word_counts vox_db "vox" (1 + 2) None =
  Ok ([mkWordCount "apple" 30] ++
      [mkWordCount "banana" 20; mkWordCount "cherry" 10]).
Proof.
  assert (Hdocs : docs_of vox_db "vox" =
                  [firestore.mkDoc "apple" 30; firestore.mkDoc "banana" 20;
                   firestore.mkDoc "cherry" 10]) by reflexivity.
  assert (Hnd : NoDup (docs_of vox_db "vox")).
  { rewrite Hdocs. apply (bool_decide_unpack _). vm_compute. exact I. }
  assert (Hwords : Forall (λ d, firestore.doc_word d ≠ "")
                     (docs_of vox_db "vox")).
  { rewrite Hdocs. repeat constructor; discriminate. }
  exact (pages_compose vox_db "vox" 1 2 None
           [mkWordCount "apple" 30]
           [mkWordCount "banana" 20; mkWordCount "cherry" 10]
           (mkWordCount "apple" 30) Hnd Hwords eq_refl eq_refl eq_refl).
Defined.

(** ** The frequency mapping *)

Lemma fold_insert_lookup (l : list WordCount) (m0 : gmap string Z)
    (w : string) :
  foldl (λ m wc, <[word wc := count wc]> m) m0 l !! w =
  match last (filter (λ r, word r = w) l) with
  | Some r => Some (count r)
  | None => m0 !! w
  end.
Proof.
  revert m0. induction l as [|r l IH]; intros m0; [done|].
  cbn [foldl]. rewrite IH. destruct (decide (word r = w)) as [Hw|Hw].
  - rewrite filter_cons_True, last_cons by done.
    destruct (last (filter _ l)); [done|].
    subst w. by rewrite lookup_insert_eq.
  - rewrite filter_cons_False by done.
    destruct (last (filter _ l)); [done|]. by rewrite lookup_insert_ne.
Qed.

Lemma fold_insert_size (l : list WordCount) (m0 : gmap string Z) :
  (size (foldl (λ m wc, <[word wc := count wc]> m) m0 l)
   ≤ size m0 + length l)%nat.
Proof.
  revert m0. induction l as [|r l IH]; intros m0; simpl; [lia|].
  etrans; [apply IH|]. rewrite map_size_insert.
  destruct (m0 !! word r); simpl; lia.
Qed.

(** The last element with a property splits the list around it. *)
Lemma last_filter_split {A} (P : A → Prop) `{!∀ x, Decision (P x)}
    (l : list A) (x : A) :
  last (filter P l) = Some x →
  ∃ before behind,
    l = before ++ x :: behind ∧ P x ∧ Forall (λ y, ¬ P y) behind.
Proof.
  induction l as [|y l IH] using rev_ind; [done|].
  rewrite filter_app. destruct (decide (P y)) as [Hy|Hy].
  - rewrite filter_cons_True, filter_nil, last_snoc by done.
    intros [= <-]. exists l, []. by repeat split.
  - rewrite filter_cons_False, filter_nil, app_nil_r by done.
    intros (before & behind & -> & Hx & Hbehind)%IH.
    exists before, (behind ++ [y]). rewrite <-app_assoc. split; [done|].
    split; [done|]. apply Forall_app. split; [done|]. by constructor.
Qed.

Lemma frequencies_inv (db : firestore.Client) (publ : string) (n : Z)
    (checkpoint : option Checkpoint) (m : gmap string Z) :
  DataStorage.frequencies db publ n checkpoint = Ok m →
  ∃ l, DataStorage.word_counts db publ n checkpoint = Ok l ∧
       m = foldl (λ m wc, <[word wc := count wc]> m) ∅ l.
Proof.
  unfold DataStorage.frequencies.
  destruct (DataStorage.word_counts db publ n checkpoint) as [l|e];
    [|done].
  intros [= <-]. by exists l.
Qed.

(** X10: [frequencies] maps a word to the count of the last record
    [word_counts] returns for it, has no other key, and so has no more
    entries than records were returned. *)
Theorem frequencies_lookup (db : firestore.Client) (publ : string) (n : Z)
    (checkpoint : option Checkpoint) (l : list WordCount) :
  DataStorage.word_counts db publ n checkpoint = Ok l →
  ∃ m, DataStorage.frequencies db publ n checkpoint = Ok m ∧
       (∀ w, m !! w = count <$> last (filter (λ r, word r = w) l)) ∧
       (size m ≤ length l)%nat.
Proof.
  intros Hl. unfold DataStorage.frequencies. rewrite Hl.
  eexists. split; [reflexivity|]. split.
  - intros w. rewrite fold_insert_lookup.
    by destruct (last (filter _ l)).
  - etrans; [apply fold_insert_size|]. by rewrite map_size_empty.
Qed.

Lemma frequencies_lookup_witness :
  DataStorage.word_counts vox_db "vox" 2 None =
    Ok [mkWordCount "apple" 30; mkWordCount "banana" 20] ∧
  ∃ m, DataStorage.frequencies vox_db "vox" 2 None = Ok m ∧
       (∀ w, m !! w =
             count <$> last (filter (λ r, word r = w)
                               [mkWordCount "apple" 30;
                                mkWordCount "banana" 20])) ∧
       (size m ≤ 2)%nat.
Proof.
  assert (H : DataStorage.word_counts vox_db "vox" 2 None =
              Ok [mkWordCount "apple" 30; mkWordCount "banana" 20])
    by reflexivity.
  exact (conj H (frequencies_lookup vox_db "vox" 2 None _ H)).
Defined.

(** X11: when a word is stored with several counts, [frequencies] reports
    the smallest count among the records returned for it; the mapping never
    has more than [top_n] entries. *)
Theorem frequencies_smallest_count (db : firestore.Client) (publ : string)
    (n : Z) (checkpoint : option Checkpoint) (m : gmap string Z)
    (w : string) (c : Z) :
  DataStorage.frequencies db publ n checkpoint = Ok m →
  m !! w = Some c →
  Z.of_nat (size m) ≤ n ∧
  ∃ l, DataStorage.word_counts db publ n checkpoint = Ok l ∧
       mkWordCount w c ∈ l ∧
       ∀ r, r ∈ l → word r = w → c ≤ count r.
Proof.
  intros (l & Hl & ->)%frequencies_inv Hw.
  pose proof (word_counts_sorted _ _ _ _ _ Hl) as Hsorted.
  split.
  { apply word_counts_inv in Hl as [Hn ->].
    pose proof (fold_insert_size
      (record_of <$> take (Z.to_nat n)
         (remaining (DataStorage.cursor_of checkpoint)
            (ordered_docs db publ))) ∅) as Hsize.
    rewrite map_size_empty, length_fmap, length_take in Hsize. lia. }
  exists l. split; [done|].
  rewrite fold_insert_lookup in Hw.
  destruct (last (filter _ l)) as [r0|] eqn:Hlast; [|done].
  injection Hw as <-.
  apply last_filter_split in Hlast as (before & behind & -> & Hr0 & Hbehind).
  split.
  - destruct r0 as [w0 c0]. simpl in *. subst w0.
    rewrite elem_of_app. right. by left.
  - intros r Hr Hrw.
    apply elem_of_app in Hr as [Hr|Hr].
    + apply StronglySorted_app in Hsorted as (Hcross & _ & _).
      specialize (Hcross r r0 Hr). unfold in_query_order in Hcross.
      destruct Hcross as [?|[? _]]; [by left|lia|lia].
    + apply elem_of_cons in Hr as [->|Hr]; [lia|].
      rewrite Forall_forall in Hbehind. by destruct (Hbehind r Hr).
Qed.

Lemma frequencies_smallest_count_witness :
  let m := foldl (λ m wc, <[word wc := count wc]> m) (∅ : gmap string Z)
             [mkWordCount "apple" 5; mkWordCount "pear" 4;
              mkWordCount "apple" 3] in
  DataStorage.frequencies twice_db "vox" 10 None = Ok m ∧
  m !! "apple" = Some 3 ∧
  Z.of_nat (size m) ≤ 10.
Proof.
  intros m.
  assert (Hm : DataStorage.frequencies twice_db "vox" 10 None = Ok m)
    by reflexivity.
  assert (Hw : m !! "apple" = Some 3) by reflexivity.
  exact (conj Hm (conj Hw
    (proj1 (frequencies_smallest_count twice_db "vox" 10 None m "apple" 3
              Hm Hw)))).
Defined.

(** ** The synthetic store *)

Lemma noop_word_counts_inv (publ : string) (n : Z)
    (checkpoint : option Checkpoint) (l : list WordCount) :
  NoOpDataStorage.word_counts publ n checkpoint = Ok l →
  ∃ start, l = ent <$> seqZ start (10 - start) ∧
           (∀ w c, checkpoint = Some (w, Some c) → start = c + 1).
Proof.
  unfold NoOpDataStorage.word_counts, NoOpDataStorage.range_to_10.
  destruct checkpoint as [[[w|] [c|]]|]; simpl; intros Hl;
    try discriminate; injection Hl as <-.
  - exists (c + 1). split; [done|]. by intros ?? [= _ ->].
  - exists (c + 1). split; [done|]. by intros ?? [= _ ->].
  - exists 0. split; [done|]. by intros ?? [=].
  - exists 0. split; [done|]. by intros ?? [=].
Qed.

Lemma ent_word_inj : Inj (=) (=) (word ∘ ent).
Proof.
  intros i j Hij. simpl in Hij.
  apply (inj (String.append "ent")) in Hij. by apply (inj pretty) in Hij.
Qed.

(** X12: every record the synthetic store returns has the word "ent"
    followed by its count in decimal, a count of at most 9 and, after a
    checkpoint with a count, a count beyond it; counts increase strictly and
    no word repeats. *)
Theorem noop_records (publ : string) (n : Z)
    (checkpoint : option Checkpoint) (l : list WordCount) :
  NoOpDataStorage.word_counts publ n checkpoint = Ok l →
  Forall (λ r, word r = "ent" +:+ pretty (count r) ∧ count r ≤ 9 ∧
               ∀ w c, checkpoint = Some (w, Some c) → c < count r) l ∧
  StronglySorted (λ a b, count a < count b) l ∧
  NoDup (word <$> l).
Proof.
  intros (start & -> & Hstart)%noop_word_counts_inv. split; [|split].
  - apply Forall_fmap, Forall_seqZ. intros i Hi. simpl.
    split; [done|]. split; [lia|].
    intros w c Hc. rewrite (Hstart w c Hc) in Hi. lia.
  - apply (StronglySorted_fmap _ Z.lt); [done|].
    apply Sorted_StronglySorted; [apply _|].
    generalize (10 - start). intros len. unfold seqZ.
    generalize (Z.to_nat len). clear. intros k.
    assert (Hgen : ∀ j, Sorted Z.lt ((λ i : nat, Z.of_nat i + start) <$> seq j k)).
    { induction k as [|k IH]; intros j; simpl; constructor; [apply IH|].
      destruct k; simpl; constructor. lia. }
    apply Hgen.
  - rewrite <-list_fmap_compose. apply (NoDup_fmap_2 _ (Inj0 := ent_word_inj)).
    apply NoDup_seqZ.
Qed.

Lemma noop_records_witness :
  NoOpDataStorage.word_counts "vox" 3 (Some (None, Some 7)) =
    Ok [ent 8; ent 9] ∧
  NoDup (word <$> [ent 8; ent 9]).
Proof.
  assert (H : NoOpDataStorage.word_counts "vox" 3 (Some (None, Some 7)) =
              Ok [ent 8; ent 9]) by reflexivity.
  exact (conj H (proj2 (proj2 (noop_records "vox" 3 _ _ H)))).
Defined.

(** X13: whenever the synthetic store returns records, the last one has
    count 9, and resuming at it returns nothing: paging through the
    synthetic store ends after one non-empty page. *)
Theorem noop_paging_ends (publ : string) (n : Z)
    (checkpoint : option Checkpoint) (l : list WordCount) (r : WordCount) :
  NoOpDataStorage.word_counts publ n checkpoint = Ok l →
  last l = Some r →
  count r = 9 ∧
  NoOpDataStorage.word_counts publ n (Some (checkpoint_of r)) = Ok [].
Proof.
  intros (start & -> & _)%noop_word_counts_inv Hlast.
  assert (Hr : count r = 9).
  { rewrite fmap_last, last_lookup, length_seqZ in Hlast.
    destruct (seqZ start (10 - start) !! _) as [i|] eqn:Hi; [|done].
    injection Hlast as <-. apply lookup_seqZ in Hi as [-> Hlt]. simpl. lia. }
  split; [done|]. destruct r as [w c]. simpl in Hr. subst c. reflexivity.
Qed.

Lemma noop_paging_ends_witness :
  NoOpDataStorage.word_counts "vox" 3 (Some (None, Some 7)) =
    Ok [ent 8; ent 9] ∧
  last [ent 8; ent 9] = Some (ent 9) ∧
  NoOpDataStorage.word_counts "vox" 3 (Some (checkpoint_of (ent 9))) = Ok [].
Proof.
  assert (H : NoOpDataStorage.word_counts "vox" 3 (Some (None, Some 7)) =
              Ok [ent 8; ent 9]) by reflexivity.
  assert (Hl : last [ent 8; ent 9] = Some (ent 9)) by reflexivity.
  exact (conj H (conj Hl (proj2 (noop_paging_ends "vox" 3 _ _ _ H Hl)))).
Defined.

(** A mapping built from records with pairwise different words holds
    exactly those records. *)
Lemma fold_insert_NoDup (l : list WordCount) :
  NoDup (word <$> l) →
  let m := foldl (λ m wc, <[word wc := count wc]> m) (∅ : gmap string Z) l in
  size m = length l ∧ ∀ w c, m !! w = Some c ↔ mkWordCount w c ∈ l.
Proof.
  induction l as [|x l IH] using rev_ind; intros Hnd m.
  { split; [done|]. intros w c. subst m. simpl. rewrite lookup_empty.
    split; [done|]. by intros ?%elem_of_nil. }
  rewrite fmap_app in Hnd. apply NoDup_app in Hnd as (Hl & Hx & _).
  destruct (IH Hl) as [Hsize Hlook]. subst m. rewrite foldl_app. simpl.
  set (m := foldl _ ∅ l) in *.
  assert (Hfresh : m !! word x = None).
  { destruct (m !! word x) as [c|] eqn:Hc; [|done].
    apply Hlook in Hc. destruct (Hx (word x)).
    - apply list_elem_of_fmap. by exists (mkWordCount (word x) c).
    - simpl. by left. }
  split.
  - rewrite map_size_insert_None, length_app by done. simpl. lia.
  - intros w c. rewrite elem_of_app, list_elem_of_singleton.
    destruct (decide (word x = w)) as [<-|Hw].
    + rewrite lookup_insert_eq. split.
      * intros [= <-]. right. by destruct x.
      * intros [Hin|Heq]; [apply Hlook in Hin; congruence|].
        apply (f_equal count) in Heq. simpl in Heq. by rewrite Heq.
    + rewrite lookup_insert_ne, Hlook by done. split; [by left|].
      intros [?|Heq]; [done|]. destruct Hw. by rewrite <-Heq.
Qed.

(** X14: the synthetic [frequencies] holds exactly the records the
    synthetic [word_counts] returns: as many entries, and a word maps to a
    count exactly when that record was returned. *)
Theorem noop_frequencies_exact (publ : string) (n : Z)
    (checkpoint : option Checkpoint) (l : list WordCount) :
  NoOpDataStorage.word_counts publ n checkpoint = Ok l →
  ∃ m, NoOpDataStorage.frequencies publ n checkpoint = Ok m ∧
       size m = length l ∧
       ∀ w c, m !! w = Some c ↔ mkWordCount w c ∈ l.
Proof.
  intros Hl. unfold NoOpDataStorage.frequencies. rewrite Hl.
  eexists. split; [reflexivity|]. apply fold_insert_NoDup.
  apply noop_word_counts_inv in Hl as (start & -> & _).
  rewrite <-list_fmap_compose. apply (NoDup_fmap_2 _ (Inj0 := ent_word_inj)).
  apply NoDup_seqZ.
Qed.

Lemma noop_frequencies_exact_witness :
  NoOpDataStorage.word_counts "vox" 3 (Some (None, Some 7)) =
    Ok [ent 8; ent 9] ∧
  ∃ m, NoOpDataStorage.frequencies "vox" 3 (Some (None, Some 7)) = Ok m ∧
       size m = 2%nat ∧
       ∀ w c, m !! w = Some c ↔ mkWordCount w c ∈ [ent 8; ent 9].
Proof.
  assert (H : NoOpDataStorage.word_counts "vox" 3 (Some (None, Some 7)) =
              Ok [ent 8; ent 9]) by reflexivity.
  exact (conj H (noop_frequencies_exact "vox" 3 _ _ H)).
Defined.

(** ** Listing publications *)

Lemma mapM_Ok {A B} (f : A → result B) (g : A → B) (l : list A) :
  (∀ x, x ∈ l → f x = Ok (g x)) → mapM f l = Ok (g <$> l).
Proof.
  induction l as [|x l IH]; intros Hf; [done|].
  cbn [mapM fmap list_fmap]. rewrite Hf by left.
  cbn [mbind result_bind]. rewrite IH; [done|].
  intros y Hy. apply Hf. by right.
Qed.

Lemma mapM_ext {A B} (f g : A → result B) (l : list A) :
  (∀ x, x ∈ l → f x = g x) → mapM f l = mapM g l.
Proof.
  induction l as [|x l IH]; intros Hf; [done|].
  cbn [mapM]. rewrite Hf by left. destruct (g x); [|done].
  cbn [mbind result_bind]. rewrite IH; [done|].
  intros y Hy. apply Hf. by right.
Qed.

(** X15: for a bucket name without tab, carriage return and line feed,
    [publications] lists one publication per document of the collection,
    in the same order, with the id and the count of the document; all image
    paths of one listing lie in one directory, each under the file name
    derived from its own id. *)
Theorem publications_listing (ck : urllib.Checks)
    (catalog : list firestore.PubDoc) (bucket_name : option string) :
  sanitary_base bucket_name →
  ∃ pubs dir,
    DataStorage.publications ck catalog bucket_name = Ok pubs ∧
    length pubs = length catalog ∧
    ∀ i doc,
      catalog !! i = Some doc →
      pubs !! i =
      Some (mkPublication (firestore.pubdoc_id doc)
              (firestore.pubdoc_count doc)
              (dir +:+ image_name (firestore.pubdoc_id doc))).
Proof.
  intros Hsan. unfold DataStorage.publications.
  set (dir := url_dir (joined_base bucket_name)).
  set (listed := λ doc,
    mkPublication (firestore.pubdoc_id doc) (firestore.pubdoc_count doc)
      (dir +:+ image_name (firestore.pubdoc_id doc))).
  exists (listed <$> catalog), dir. split; [|split].
  - apply mapM_Ok. intros doc _.
    by rewrite image_url_path_dir.
  - apply length_fmap.
  - intros i doc Hdoc. by rewrite list_lookup_fmap, Hdoc.
Qed.

Lemma publications_listing_witness :
  sanitary_base (Some "img") ∧
  ∃ pubs dir,
    DataStorage.publications urllib.lenient
      [firestore.mkPubDoc "vox" 7; firestore.mkPubDoc "cnn" 3] (Some "img") =
      Ok pubs ∧
    pubs !! 0%nat = Some (mkPublication "vox" 7 (dir +:+ image_name "vox")) ∧
    pubs !! 1%nat = Some (mkPublication "cnn" 3 (dir +:+ image_name "cnn")).
Proof.
  assert (Hsan : sanitary_base (Some "img")) by reflexivity.
  split; [exact Hsan|].
  destruct (publications_listing urllib.lenient
              [firestore.mkPubDoc "vox" 7; firestore.mkPubDoc "cnn" 3]
              (Some "img") Hsan) as (pubs & dir & Hpubs & _ & Hdir).
  exists pubs, dir. split; [exact Hpubs|]. split.
  - exact (Hdir 0%nat (firestore.mkPubDoc "vox" 7) eq_refl).
  - exact (Hdir 1%nat (firestore.mkPubDoc "cnn" 3) eq_refl).
Defined.

(** X16: bucket names with the same canonical form give the same listing
    of publications. *)
Theorem publications_base_invariant (ck : urllib.Checks)
    (catalog : list firestore.PubDoc) (b1 b2 : option string) :
  canonical_base b1 = canonical_base b2 →
  DataStorage.publications ck catalog b1 =
  DataStorage.publications ck catalog b2.
Proof.
  intros Hcanon. unfold DataStorage.publications.
  apply mapM_ext. intros doc _.
  rewrite !image_url_path_eq.
  by rewrite (urljoin_canonical ck (image_name (firestore.pubdoc_id doc))
                b1 b2 (image_name_plain _) (image_name_nonempty _) Hcanon).
Qed.

Lemma publications_base_invariant_witness :
  canonical_base (Some "img") = canonical_base (Some "/img//") ∧
  DataStorage.publications urllib.lenient [firestore.mkPubDoc "vox" 7]
    (Some "img") =
  DataStorage.publications urllib.lenient [firestore.mkPubDoc "vox" 7]
    (Some "/img//").
Proof.
  assert (H : canonical_base (Some "img") = canonical_base (Some "/img//"))
    by reflexivity.
  exact (conj H (publications_base_invariant urllib.lenient _ _ _ H)).
Defined.

(** X17: for a bucket name without tab, carriage return and line feed, the
    synthetic store lists ten publications, pub0 to pub9 with counts 0 to 9
    in this order, and no two of them share an image path. *)
Theorem noop_publications (ck : urllib.Checks) (bucket_name : option string) :
  sanitary_base bucket_name →
  ∃ pubs,
    NoOpDataStorage.publications ck bucket_name = Ok pubs ∧
    publication_id <$> pubs = (λ i, "pub" +:+ pretty i) <$> seqZ 0 10 ∧
    publication_count <$> pubs = seqZ 0 10 ∧
    NoDup (publication_image_url <$> pubs).
Proof.
  intros Hsan. unfold NoOpDataStorage.publications.
  set (dir := url_dir (joined_base bucket_name)).
  set (listed := λ i : Z,
    mkPublication ("pub" +:+ pretty i) i
      (dir +:+ image_name ("pub" +:+ pretty i))).
  exists (listed <$> seqZ 0 10). split; [|split; [|split]].
  - apply mapM_Ok. intros i _. cbv zeta.
    by rewrite image_url_path_dir.
  - rewrite <-list_fmap_compose. by apply list_fmap_ext.
  - rewrite <-list_fmap_compose.
    rewrite <-(list_fmap_id (seqZ 0 10)) at 2. by apply list_fmap_ext.
  - assert (Hurls : publication_image_url <$> (listed <$> seqZ 0 10) =
      String.append dir
        <$> (image_name <$> ((λ i, "pub" +:+ pretty i) <$> seqZ 0 10))).
    { rewrite <-!list_fmap_compose. by apply list_fmap_ext. }
    rewrite Hurls. apply (NoDup_fmap_2 _).
    apply (bool_decide_unpack _). vm_compute. exact I.
Qed.

Lemma noop_publications_witness :
  sanitary_base (Some "img") ∧
  ∃ pubs,
    NoOpDataStorage.publications urllib.lenient (Some "img") = Ok pubs ∧
    publication_count <$> pubs = seqZ 0 10.
Proof.
  assert (Hsan : sanitary_base (Some "img")) by reflexivity.
  split; [exact Hsan|].
  destruct (noop_publications urllib.lenient (Some "img") Hsan)
    as (pubs & Hpubs & _ & Hcounts & _).
  exists pubs. exact (conj Hpubs Hcounts).
Defined.

(** ** Choosing a client *)

(** X18: [get_client] gives the document client for "db" and the blob
    client for "blob", compared exactly, and raises the unknown-type error
    for every other string, "DB" included. *)
Theorem get_client_cases (_type : string) :
  (get_client _type = Ok FirestoreClient ↔ _type = "db") ∧
  (get_client _type = Ok StorageClient ↔ _type = "blob") ∧
  (get_client _type = Raise (ValueError "unknown client type") ↔
   _type ≠ "db" ∧ _type ≠ "blob") ∧
  get_client "DB" = Raise (ValueError "unknown client type").
Proof.
  unfold get_client.
  destruct (String.eqb_spec _type "db") as [->|Hdb].
  { repeat split; try done. by intros [? _]. }
  destruct (String.eqb_spec _type "blob") as [->|Hblob].
  { repeat split; try done. by intros [_ ?]. }
  repeat split; done.
Qed.

(** ** The last page *)

(** X19: in a store without ties and without empty words, a page that
    holds fewer records than were asked for is the last one: resuming at
    its last record returns nothing. *)
Theorem short_page_is_last (db : firestore.Client) (publ : string)
    (n n' : Z) (checkpoint : option Checkpoint) (page : list WordCount)
    (r : WordCount) :
  NoDup (docs_of db publ) →
  Forall (λ d, firestore.doc_word d ≠ "") (docs_of db publ) →
  DataStorage.word_counts db publ n checkpoint = Ok page →
  Z.of_nat (length page) < n →
  last page = Some r →
  0 ≤ n' →
  DataStorage.word_counts db publ n' (Some (checkpoint_of r)) = Ok [].
Proof.
  intros Hnd Hwords [Hn ->]%word_counts_inv Hshort Hlast Hn'.
  pose proof (ordered_docs_strict db publ Hnd) as Hstrict.
  destruct (remaining_suffix (DataStorage.cursor_of checkpoint) _ Hstrict)
    as [before Hsplit].
  set (rest := remaining (DataStorage.cursor_of checkpoint)
                 (ordered_docs db publ)) in *.
  rewrite length_fmap, length_take in Hshort.
  rewrite take_ge in Hlast by lia. rewrite fmap_last in Hlast.
  destruct (last rest) as [y|] eqn:Hy; [|done].
  injection Hlast as <-. apply last_Some in Hy as [front Hfront].
  assert (Hword : firestore.doc_word y ≠ "").
  { rewrite Forall_forall in Hwords. apply Hwords.
    rewrite <-ordered_docs_perm, Hsplit, Hfront.
    rewrite !elem_of_app. right. right. by left. }
  rewrite word_counts_eq, cursor_of_record by done.
  rewrite Hsplit, Hfront, app_assoc in Hstrict |- *.
  cbn [remaining]. rewrite (seek_after _ y []) by done.
  by rewrite take_nil.
Qed.

Lemma short_page_is_last_witness :
  DataStorage.word_counts vox_db "vox" 5 (Some (Some "apple", Some 30)) =
    Ok [mkWordCount "banana" 20; mkWordCount "cherry" 10] ∧
  DataStorage.word_counts vox_db "vox" 5
    (Some (checkpoint_of (mkWordCount "cherry" 10))) = Ok [].
Proof.
  assert (Hdocs : docs_of vox_db "vox" =
                  [firestore.mkDoc "apple" 30; firestore.mkDoc "banana" 20;
                   firestore.mkDoc "cherry" 10]) by reflexivity.
  assert (Hnd : NoDup (docs_of vox_db "vox")).
  { rewrite Hdocs. apply (bool_decide_unpack _). vm_compute. exact I. }
  assert (Hwords : Forall (λ d, firestore.doc_word d ≠ "")
                     (docs_of vox_db "vox")).
  { rewrite Hdocs. repeat constructor; discriminate. }
  assert (Hpage : DataStorage.word_counts vox_db "vox" 5
                    (Some (Some "apple", Some 30)) =
                  Ok [mkWordCount "banana" 20; mkWordCount "cherry" 10])
    by reflexivity.
  assert (Hshort : Z.of_nat (length [mkWordCount "banana" 20;
                                     mkWordCount "cherry" 10]) < 5)
    by (simpl; lia).
  assert (Hn : 0 ≤ 5) by lia.
  exact (conj Hpage
    (short_page_is_last vox_db "vox" 5 5 _ _ (mkWordCount "cherry" 10)
       Hnd Hwords Hpage Hshort eq_refl Hn)).
Defined.

(** X20: when the records [word_counts] returns have pairwise different
    words, [frequencies] holds exactly those records: as many entries, and
    a word maps to a count exactly when that record was returned. *)
Theorem frequencies_exact (db : firestore.Client) (publ : string) (n : Z)
    (checkpoint : option Checkpoint) (l : list WordCount) :
  DataStorage.word_counts db publ n checkpoint = Ok l →
  NoDup (word <$> l) →
  ∃ m, DataStorage.frequencies db publ n checkpoint = Ok m ∧
       size m = length l ∧
       ∀ w c, m !! w = Some c ↔ mkWordCount w c ∈ l.
Proof.
  intros Hl Hnd. unfold DataStorage.frequencies. rewrite Hl.
  eexists. split; [reflexivity|]. by apply fold_insert_NoDup.
Qed.

Lemma frequencies_exact_witness :
  DataStorage.word_counts vox_db "vox" 2 None =
    Ok [mkWordCount "apple" 30; mkWordCount "banana" 20] ∧
  NoDup (word <$> [mkWordCount "apple" 30; mkWordCount "banana" 20]) ∧
  ∃ m, DataStorage.frequencies vox_db "vox" 2 None = Ok m ∧
       size m = 2%nat ∧
       ∀ w c, m !! w = Some c ↔
              mkWordCount w c ∈ [mkWordCount "apple" 30;
                                 mkWordCount "banana" 20].
Proof.
  assert (H : DataStorage.word_counts vox_db "vox" 2 None =
              Ok [mkWordCount "apple" 30; mkWordCount "banana" 20])
    by reflexivity.
  assert (Hnd : NoDup (word <$> [mkWordCount "apple" 30;
                                 mkWordCount "banana" 20])).
  { apply (bool_decide_unpack _). vm_compute. exact I. }
  exact (conj H (conj Hnd (frequencies_exact vox_db "vox" 2 None _ H Hnd))).
Defined.
